(** * desktop-config-esp32: the serial line protocol of [main.py]

    A shallow embedding of the two parts of [main.py] that carry the
    protocol: [SerialWorker] (the polling reader thread and the write path)
    and [MainWindow.parse_response] / [MainWindow.handle_data] (the
    classification of a received line).

    Conventions of the embedding.
    - A Python [str] is a [string] whose characters are the code points
      U+0000..U+00FF; the classification of characters ([str.isdigit],
      [str.strip], [int]) is CPython's on that range.
    - A Python [int] is a [Z]; [int(s)] is the unbounded conversion of the
      language (the interpreter's configurable cap on the number of digits
      is not part of the model).
    - A method call on a Qt widget is recorded as a [ui_call], in order, in
      the window; the calls themselves are taken to succeed. A
      [try: ... except: pass] block keeps the calls made before the
      exception, exactly as the widgets would keep their new values.
    - The serial device is the environment: each iteration of the reader
      loop is given the outcome of its poll. *)

From Stdlib Require Import ZArith NArith Ascii String List Bool Lia.
From stdpp Require Import gmap strings.

Open Scope string_scope.
Open Scope list_scope.

(** ** Python strings *)

Definition ord (c : ascii) : N := N_of_ascii c.

(** Whitespace of [str.strip()] and [str.isspace()]. *)
Definition Py_UNICODE_ISSPACE (c : ascii) : bool :=
  let n := ord c in
  ((9 <=? n) && (n <=? 13) || (28 <=? n) && (n <=? 32)
   || (n =? 133) || (n =? 160))%N.

(** Whitespace of the C-level integer parser. *)
Definition Py_ISSPACE (c : ascii) : bool :=
  let n := ord c in ((9 <=? n) && (n <=? 13) || (n =? 32))%N.

(** The value of a decimal digit character. *)
Definition Py_UNICODE_TODECIMAL (c : ascii) : option Z :=
  let n := ord c in
  if ((48 <=? n) && (n <=? 57))%N then Some (Z.of_N n - 48)%Z else None.

Definition is_decimal (c : ascii) : bool :=
  match Py_UNICODE_TODECIMAL c with Some _ => true | None => false end.

(** Characters accepted by [str.isdigit()]: the decimal digits and the
    superscripts U+00B2, U+00B3 and U+00B9. *)
Definition Py_UNICODE_ISDIGIT (c : ascii) : bool :=
  let n := ord c in
  (is_decimal c || (n =? 178) || (n =? 179) || (n =? 185))%N.

Fixpoint str_all (p : ascii -> bool) (s : string) : bool :=
  match s with
  | "" => true
  | String c r => p c && str_all p r
  end.

Definition str_is_empty (s : string) : bool :=
  match s with "" => true | _ => false end.

(** [sub in s]. *)
Fixpoint str_in (sub s : string) : bool :=
  String.prefix sub s ||
  match s with
  | "" => false
  | String _ r => str_in sub r
  end.

(** [s.split(sep)] for a separator of one character. *)
Fixpoint split (sep : ascii) (s : string) : list string :=
  match s with
  | "" => [""]
  | String c r =>
      if Ascii.eqb c sep then "" :: split sep r
      else match split sep r with
           | h :: t => String c h :: t
           | [] => [String c ""]
           end
  end.

Fixpoint lstrip (s : string) : string :=
  match s with
  | "" => ""
  | String c r => if Py_UNICODE_ISSPACE c then lstrip r else s
  end.

Fixpoint rstrip (s : string) : string :=
  match s with
  | "" => ""
  | String c r =>
      let r' := rstrip r in
      if str_is_empty r' && Py_UNICODE_ISSPACE c then "" else String c r'
  end.

(** [s.strip()]. *)
Definition strip (s : string) : string := rstrip (lstrip s).

(** [s.isdigit()]. *)
Definition isdigit (s : string) : bool :=
  negb (str_is_empty s) && str_all Py_UNICODE_ISDIGIT s.

(** *** [int(s)]

    CPython first rewrites a string that is not pure ASCII: whitespace
    becomes a blank, a decimal digit its ASCII digit, and the first other
    character above U+007E becomes [?] and ends the string. *)
Fixpoint transform_decimal_and_space (s : string) : string :=
  match s with
  | "" => ""
  | String c r =>
      if (ord c <? 127)%N then String c (transform_decimal_and_space r)
      else if Py_UNICODE_ISSPACE c
           then String " " (transform_decimal_and_space r)
           else "?"
  end.

Definition to_ascii_digits (s : string) : string :=
  if str_all (fun c => (ord c <? 128)%N) s then s
  else transform_decimal_and_space s.

Fixpoint skip_space (s : string) : string :=
  match s with
  | "" => ""
  | String c r => if Py_ISSPACE c then skip_space r else s
  end.

(** The digit scan of the parser in base 10: digits, with single
    underscores allowed between them. [prev_us] says that the previous
    character was an underscore and [seen] that a digit was read. The
    result is the value and the unread rest. *)
Fixpoint scan_digits (prev_us seen : bool) (acc : Z) (s : string)
  : option (Z * string) :=
  let stop := if prev_us || negb seen then None else Some (acc, s) in
  match s with
  | "" => stop
  | String c r =>
      match Py_UNICODE_TODECIMAL c with
      | Some d => scan_digits false true (acc * 10 + d)%Z r
      | None =>
          if Ascii.eqb c "_"
          then if prev_us || negb seen then None
               else scan_digits true seen acc r
          else stop
      end
  end.

Definition PyLong_FromString (s : string) : option Z :=
  let s1 := skip_space s in
  let '(sign, s2) :=
    match s1 with
    | String c r =>
        if Ascii.eqb c "+" then (1%Z, r)
        else if Ascii.eqb c "-" then ((-1)%Z, r)
        else (1%Z, s1)
    | "" => (1%Z, s1)
    end in
  match scan_digits false false 0 s2 with
  | Some (v, rest) =>
      if str_is_empty (skip_space rest) then Some (sign * v)%Z else None
  | None => None
  end.

(** [int(s)]: [None] stands for [ValueError]. *)
Definition py_int (s : string) : option Z :=
  PyLong_FromString (to_ascii_digits s).

(** The line feed that ends a line on the wire. *)
Definition LF : string := String (ascii_of_N 10) "".

(** *** [str(n)] *)

Definition digit_char (d : N) : ascii := ascii_of_N (48 + d).

Fixpoint digits_of (fuel : nat) (n : N) (acc : string) : string :=
  match fuel with
  | O => acc
  | S f =>
      let acc' := String (digit_char (n mod 10)) acc in
      if (n / 10 =? 0)%N then acc' else digits_of f (n / 10) acc'
  end.

Definition py_str_N (n : N) : string :=
  digits_of (S (N.to_nat (N.log2 n))) n "".

(** [str(z)], also what an f-string prints for [{z}]. *)
Definition py_str (z : Z) : string :=
  match z with
  | Zneg p => String "-" (py_str_N (Npos p))
  | _ => py_str_N (Z.to_N z)
  end.

(** The value of a string of decimal digits, most significant first. *)
Fixpoint decimal_value (s : string) : Z :=
  match s with
  | "" => 0
  | String c r =>
      (match Py_UNICODE_TODECIMAL c with Some d => d | None => 0 end
       * 10 ^ Z.of_nat (String.length r) + decimal_value r)%Z
  end.

(** ** The serial worker thread *)

Module SerialWorker.

(** The [serial.Serial] handle, as far as the worker uses it. *)
Record Serial := {
  port : string;
  baudrate : Z;
  is_open : bool;
  written : list string
}.

Definition close (p : Serial) : Serial :=
  {| port := port p; baudrate := baudrate p;
     is_open := false; written := written p |}.

Definition write (bytes : string) (p : Serial) : Serial :=
  {| port := port p; baudrate := baudrate p;
     is_open := is_open p; written := written p ++ [bytes] |}.

Inductive signal :=
| data_received (data : string)
| error_occurred (msg : string)
| connection_lost.

Record t := {
  serial_port : option Serial;
  is_running : bool
}.

(** [__init__]. *)
Definition init : t := {| serial_port := None; is_running := false |}.

(** [self.serial_port and self.serial_port.is_open]. *)
Definition port_is_open (w : t) : bool :=
  match serial_port w with
  | Some p => is_open p
  | None => false
  end.

(** [connect_port]; [open_error] is the outcome of [serial.Serial(...)]:
    [None] when the port opens, [Some e] when it raises [e]. *)
Definition connect_port (name : string) (baud : Z)
    (open_error : option string) (w : t) : t * list signal * bool :=
  match open_error with
  | None =>
      ({| serial_port :=
            Some {| port := name; baudrate := baud;
                    is_open := true; written := [] |};
          is_running := true |}, [], true)
  | Some e => (w, [error_occurred e], false)
  end.

Definition disconnect (w : t) : t * list signal :=
  let w1 := {| serial_port := serial_port w; is_running := false |} in
  match serial_port w1 with
  | Some p =>
      if is_open p
      then ({| serial_port := Some (close p);
               is_running := is_running w1 |}, [])
      else (w1, [])
  | None => (w1, [])
  end.

(** [send_command]; [write_error] is the outcome of the write, used only
    when a write is attempted. *)
Definition send_command (command : string) (write_error : option string)
    (w : t) : t * list signal :=
  match serial_port w with
  | Some p =>
      if is_open p then
        match write_error with
        | None =>
            ({| serial_port := Some (write (command +:+ LF) p);
                is_running := is_running w |}, [])
        | Some e => (w, [error_occurred ("Send error: " +:+ e)])
        end
      else (w, [])
  | None => (w, [])
  end.

(** What one iteration of the loop finds on the port: nothing waiting, a
    line ([readline().decode('utf-8')] returned it), or an exception
    raised by the read or the decoding. *)
Inductive poll :=
| no_data
| line (s : string)
| fault (e : string).

(** The body of the [while] loop, without the sleep. *)
Definition iteration (p : poll) (w : t) : t * list signal :=
  if port_is_open w then
    match p with
    | no_data => (w, [])
    | line s =>
        let data := strip s in
        if str_is_empty data then (w, []) else (w, [data_received data])
    | fault e =>
        ({| serial_port := serial_port w; is_running := false |},
         [error_occurred ("Read error: " +:+ e); connection_lost])
    end
  else (w, []).

(** [run]: the loop over the outcomes of its successive iterations. The
    result is the worker, the signals emitted in order, and the outcomes
    the loop did not get to. The loop has exited when the resulting
    worker is not running. *)
Fixpoint run (polls : list poll) (w : t) : t * list signal * list poll :=
  if is_running w then
    match polls with
    | [] => (w, [], [])
    | p :: rest =>
        let '(w1, out1) := iteration p w in
        let '(w2, out2, unread) := run rest w1 in
        (w2, out1 ++ out2, unread)
    end
  else (w, [], polls).

End SerialWorker.

(** ** The main window *)

Module MainWindow.

Inductive widget :=
| analog1_progress
| analog1_label
| analog2_progress
| analog2_label
| int_lcd
| rx_led
| tx_led
| connect_btn
| status_label
| LEDWidget (i : nat)
| QLabel (i : nat).

(** The calls made on the widgets; [log_message] is the window's own
    logging method, recorded with its two arguments. *)
Inductive ui_call :=
| setValue (w : widget) (v : Z)
| setText (w : widget) (s : string)
| setState (w : widget) (b : bool)
| setStyleSheet (w : widget) (s : string)
| setChecked (w : widget) (b : bool)
| display (w : widget) (v : Z)
| singleShot (msec : Z) (c : ui_call)
| log_message (msg msg_type : string)
| QMessageBox_warning (title text : string).

Record t := {
  serial_worker : SerialWorker.t;
  connect_btn_isChecked : bool;
  calls : list ui_call
}.

Definition init : t :=
  {| serial_worker := SerialWorker.init;
     connect_btn_isChecked := false;
     calls := [] |}.

Inductive exn := ValueError | IndexError | KeyError.

Inductive result (A : Type) :=
| Ok (a : A)
| Raise (e : exn).
Arguments Ok {A} a.
Arguments Raise {A} e.

(** A method of the window: it may raise, and it changes the window. *)
Definition M (A : Type) : Type := t -> result A * t.

#[export] Instance M_ret : MRet M := fun A a w => (Ok a, w).

#[export] Instance M_bind : MBind M := fun A B f m w =>
  match m w with
  | (Ok a, w') => f a w'
  | (Raise e, w') => (Raise e, w')
  end.

Definition raise {A} (e : exn) : M A := fun w => (Raise e, w).

Definition call (c : ui_call) : M unit := fun w =>
  (Ok tt, {| serial_worker := serial_worker w;
             connect_btn_isChecked := connect_btn_isChecked w;
             calls := calls w ++ [c] |}).

(** [try: body except: pass]. *)
Definition try_except_pass (body : M unit) : M unit := fun w =>
  match body w with
  | (Ok _, w') => (Ok tt, w')
  | (Raise _, w') => (Ok tt, w')
  end.

Definition from_option {A} (e : exn) (o : option A) : M A :=
  match o with
  | Some a => mret a
  | None => raise e
  end.

(** [l[i]]. *)
Definition getitem {A} (l : list A) (i : nat) : M A :=
  from_option IndexError (l !! i).

(** [int(s)]. *)
Definition int (s : string) : M Z := from_option ValueError (py_int s).

(** [a, b = l]. *)
Definition unpack2 (l : list string) : M (string * string) :=
  match l with
  | [a; b] => mret (a, b)
  | _ => raise ValueError
  end.

(** The dictionary built by the constructor of the window. *)
Definition inputs : list string :=
  ["Button 1"; "Button 2"; "Sensor 1"; "Sensor 2"].

Definition digital_labels : gmap string (widget * widget) :=
  fold_left (fun d '(i, name) => <[name := (LEDWidget i, QLabel i)]> d)
            (imap (fun i name => (i, name)) inputs) ∅.

(** *** [parse_response] *)

Definition analog_body (data : string) : M unit :=
  let parts := split "," data in
  p0 ← getitem parts 0;
  f0 ← getitem (split ":" p0) 1;
  ch1 ← int f0;
  p1 ← getitem parts 1;
  f1 ← getitem (split ":" p1) 1;
  ch2 ← int f1;
  call (setValue analog1_progress ch1);;
  call (setText analog1_label (py_str ch1 +:+ " mV"));;
  call (setValue analog2_progress ch2);;
  call (setText analog2_label (py_str ch2 +:+ " mV")).

(** [for part in parts: key, val = part.split(':'); values[key] = int(val)] *)
Fixpoint collect_values (parts : list string) (values : gmap string Z)
  : M (gmap string Z) :=
  match parts with
  | [] => mret values
  | part :: rest =>
      kv ← unpack2 (split ":" part);
      v ← int kv.2;
      collect_values rest (<[kv.1 := v]> values)
  end.

Definition inputs_map : list (string * string) :=
  [("B1", "Button 1"); ("B2", "Button 2");
   ("S1", "Sensor 1"); ("S2", "Sensor 2")].

(** The three calls that show one digital input. *)
Definition show_input (led label : widget) (state : bool) : M unit :=
  call (setState led state);;
  call (setText label (if state then "HIGH" else "LOW"));;
  call (setStyleSheet label
          ("color: " +:+ (if state then "green" else "black") +:+ ";")).

(** [for key, name in inputs_map.items(): if key in values: ...] *)
Fixpoint update_inputs (items : list (string * string))
    (values : gmap string Z) : M unit :=
  match items with
  | [] => mret tt
  | (key, name) :: rest =>
      match values !! key with
      | Some v =>
          let state := negb (v =? 0)%Z in
          ws ← from_option KeyError (digital_labels !! name);
          show_input ws.1 ws.2 state
      | None => mret tt
      end;;
      update_inputs rest values
  end.

Definition digital_body (data : string) : M unit :=
  let parts := split "," data in
  values ← collect_values parts ∅;
  update_inputs inputs_map values.

Definition interrupt_body (data : string) : M unit :=
  v ← int data;
  call (display int_lcd v).

Definition parse_response (data : string) : M unit :=
  if str_in "CH1:" data && str_in "CH2:" data then
    try_except_pass (analog_body data)
  else if str_in "B1:" data && str_in "B2:" data then
    try_except_pass (digital_body data)
  else if isdigit data then
    try_except_pass (interrupt_body data)
  else mret tt.

Definition handle_data (data : string) : M unit :=
  call (log_message ("RX: " +:+ data) "rx");;
  call (setState rx_led true);;
  call (singleShot 100 (setState rx_led false));;
  parse_response data.

Definition handle_error (error : string) : M unit :=
  call (log_message ("Error: " +:+ error) "error").

(** *** The connection *)

(** A method of the worker called from the window. *)
Definition on_worker {A} (f : SerialWorker.t -> SerialWorker.t * A)
  : M A := fun w =>
  let '(sw, a) := f (serial_worker w) in
  (Ok a, {| serial_worker := sw;
            connect_btn_isChecked := connect_btn_isChecked w;
            calls := calls w |}).

(** The worker's methods called by the window emit [error_occurred]
    only, and the slot runs at once, in the calling thread. *)
Fixpoint emitted_here (sigs : list SerialWorker.signal) : M unit :=
  match sigs with
  | [] => mret tt
  | SerialWorker.error_occurred e :: rest =>
      handle_error e;; emitted_here rest
  | SerialWorker.data_received d :: rest =>
      handle_data d;; emitted_here rest
  | SerialWorker.connection_lost :: rest => emitted_here rest
  end.

Definition isChecked : M bool := fun w => (Ok (connect_btn_isChecked w), w).

(** [self.connect_btn.setChecked(b)]; the button is connected through
    [clicked], which a programmatic change does not emit. *)
Definition connect_btn_setChecked (b : bool) : M unit := fun w =>
  (Ok tt, {| serial_worker := serial_worker w;
             connect_btn_isChecked := b;
             calls := calls w ++ [setChecked connect_btn b] |}).

(** What [toggle_connection] reads from outside: the two combo boxes
    and the outcome of opening the port. *)
Record connect_env := {
  port_text : string;
  baud : Z;
  open_error : option string
}.

Definition toggle_connection (env : connect_env) : M unit :=
  checked ← isChecked;
  if (checked : bool) then
    r ← on_worker (fun sw =>
           let '(sw', sigs, ok) :=
             SerialWorker.connect_port (port_text env) (baud env)
                                       (open_error env) sw in
           (sw', (sigs, ok)));
    emitted_here r.1;;
    if (r.2 : bool) then
      call (setText connect_btn "Disconnect");;
      call (setText status_label "Connected");;
      call (setStyleSheet status_label "color: green; font-weight: bold;");;
      call (log_message ("Connected to " +:+ port_text env +:+ " at "
                         +:+ py_str (baud env) +:+ " baud") "info")
    else connect_btn_setChecked false
  else
    sigs ← on_worker SerialWorker.disconnect;
    emitted_here sigs;;
    call (setText connect_btn "Connect");;
    call (setText status_label "Disconnected");;
    call (setStyleSheet status_label "color: red; font-weight: bold;");;
    call (log_message "Disconnected" "info").

Definition send_command (cmd : string) (write_error : option string)
  : M unit := fun w =>
  if SerialWorker.is_running (serial_worker w) then
    (sigs ← on_worker (SerialWorker.send_command cmd write_error);
     emitted_here sigs;;
     call (log_message ("TX: " +:+ cmd) "tx");;
     call (setState tx_led true);;
     call (singleShot 100 (setState tx_led false))) w
  else
    call (QMessageBox_warning "Not Connected" "Please connect first") w.

Definition handle_disconnect (env : connect_env) : M unit :=
  connect_btn_setChecked false;;
  toggle_connection env.

(** The slots connected to the worker's signals. *)
Definition slot (env : connect_env) (s : SerialWorker.signal) : M unit :=
  match s with
  | SerialWorker.data_received d => handle_data d
  | SerialWorker.error_occurred e => handle_error e
  | SerialWorker.connection_lost => handle_disconnect env
  end.

Fixpoint deliver (env : connect_env) (sigs : list SerialWorker.signal)
  : M unit :=
  match sigs with
  | [] => mret tt
  | s :: rest => slot env s;; deliver env rest
  end.

(** The worker thread runs its loop over [polls]; the signals it emitted
    are queued and their slots run in the window, in order. The result is
    what the loop left unread. *)
Definition worker_thread (env : connect_env)
    (polls : list SerialWorker.poll) : M (list SerialWorker.poll) :=
  r ← on_worker (fun sw =>
         let '(sw', sigs, unread) := SerialWorker.run polls sw in
         (sw', (sigs, unread)));
  deliver env r.1;;
  mret r.2.

End MainWindow.

(** ** Vocabulary of the properties *)

Import MainWindow.

(** The window after some more calls. *)
Definition add_calls (cs : list ui_call) (w : MainWindow.t) : MainWindow.t :=
  {| serial_worker := serial_worker w;
     connect_btn_isChecked := connect_btn_isChecked w;
     calls := calls w ++ cs |}.

(** [emits m r cs]: whatever the window, [m] ends with [r] and has made
    exactly the calls [cs], touching nothing else. *)
Definition emits {A} (m : M A) (r : result A) (cs : list ui_call) : Prop :=
  forall w, m w = (r, add_calls cs w).

(** The analog update for the pair [(ch1, ch2)]. *)
Definition analog_update (ch1 ch2 : Z) : list ui_call :=
  [setValue analog1_progress ch1; setText analog1_label (py_str ch1 +:+ " mV");
   setValue analog2_progress ch2; setText analog2_label (py_str ch2 +:+ " mV")].

(** The update of the digital input shown under [name]. *)
Definition digital_update (name : string) (state : bool) : list ui_call :=
  match digital_labels !! name with
  | Some (led, label) =>
      [setState led state;
       setText label (if state then "HIGH" else "LOW");
       setStyleSheet label
         ("color: " +:+ (if state then "green" else "black") +:+ ";")]
  | None => []
  end.

(** The update of the interrupt counter. *)
Definition interrupt_update (n : Z) : list ui_call := [display int_lcd n].

(** What [handle_data] does for every line before it is parsed: the entry
    in the communication log, with the line as received, and the flash of
    the RX indicator. *)
Definition raw_entry (data : string) : list ui_call :=
  [log_message ("RX: " +:+ data) "rx"; setState rx_led true;
   singleShot 100 (setState rx_led false)].

(** The two numbers of an analog line, read on their own: the second
    field of the first segment and the second field of the second. *)
Definition analog_fields (data : string) : option (Z * Z) :=
  match split "," data with
  | s0 :: s1 :: _ =>
      match split ":" s0, split ":" s1 with
      | _ :: v0 :: _, _ :: v1 :: _ =>
          match py_int v0, py_int v1 with
          | Some ch1, Some ch2 => Some (ch1, ch2)
          | _, _ => None
          end
      | _, _ => None
      end
  | _ => None
  end.

(** A segment [key:value] of a digital line, read on its own. *)
Definition parse_pair (part : string) : option (string * Z) :=
  match split ":" part with
  | [key; val] =>
      match py_int val with
      | Some v => Some (key, v)
      | None => None
      end
  | _ => None
  end.

(** All the segments of a line, when each one reads as [key:integer]. *)
Fixpoint parse_pairs (parts : list string) : option (list (string * Z)) :=
  match parts with
  | [] => Some []
  | part :: rest =>
      match parse_pair part, parse_pairs rest with
      | Some kv, Some kvs => Some (kv :: kvs)
      | _, _ => None
      end
  end.

Definition segments (data : string) : option (list (string * Z)) :=
  parse_pairs (split "," data).

(** The value given to [key] by the last segment that names it. *)
Fixpoint last_value (key : string) (kvs : list (string * Z)) : option Z :=
  match kvs with
  | [] => None
  | (k, v) :: rest =>
      match last_value key rest with
      | Some v' => Some v'
      | None => if String.eqb k key then Some v else None
      end
  end.

(** The dictionary [values] after the loop over the segments. *)
Definition values_of (kvs : list (string * Z)) (values : gmap string Z)
  : gmap string Z :=
  fold_left (fun m kv => <[kv.1 := kv.2]> m) kvs values.

(** The digital updates for the segments [kvs]: for each known key, in the
    order of [inputs_map], the update with the last value given to it. *)
Definition digital_updates (kvs : list (string * Z)) : list ui_call :=
  flat_map (fun kn : string * string =>
              match last_value kn.1 kvs with
              | Some v => digital_update kn.2 (negb (v =? 0)%Z)
              | None => []
              end) inputs_map.

(** The four rules of the classification, in their order. *)
Inductive rule := Analog | Digital | Interrupt | Raw.

Definition rules : list rule := [Analog; Digital; Interrupt; Raw].

Definition rank (r : rule) : nat :=
  match r with
  | Analog => 0
  | Digital => 1
  | Interrupt => 2
  | Raw => 3
  end.

Definition trigger (r : rule) (data : string) : bool :=
  match r with
  | Analog => str_in "CH1:" data && str_in "CH2:" data
  | Digital => str_in "B1:" data && str_in "B2:" data
  | Interrupt => isdigit data
  | Raw => true
  end.

Definition handler (r : rule) (data : string) : M unit :=
  match r with
  | Analog => try_except_pass (analog_body data)
  | Digital => try_except_pass (digital_body data)
  | Interrupt => try_except_pass (interrupt_body data)
  | Raw => mret tt
  end.

(** First match wins. *)
Definition first_match (data : string) : option rule :=
  find (fun r => trigger r data) rules.

(** The lines a run of polls delivers when none of them fails. *)
Definition delivered (polls : list SerialWorker.poll)
  : list SerialWorker.signal :=
  flat_map (fun p =>
              match p with
              | SerialWorker.line s =>
                  if str_is_empty (strip s) then []
                  else [SerialWorker.data_received (strip s)]
              | _ => []
              end) polls.

Definition is_fault (p : SerialWorker.poll) : bool :=
  match p with SerialWorker.fault _ => true | _ => false end.

Definition is_connection_lost (s : SerialWorker.signal) : bool :=
  match s with SerialWorker.connection_lost => true | _ => false end.

Definition is_error_occurred (s : SerialWorker.signal) : bool :=
  match s with SerialWorker.error_occurred _ => true | _ => false end.

(** The worker of the end-to-end scenario: connected to [COM_TEST] at
    9600 baud, and then disconnected. *)
Definition connected : SerialWorker.t :=
  (SerialWorker.connect_port "COM_TEST" 9600 None SerialWorker.init).1.1.

Definition after_disconnect : SerialWorker.t :=
  (SerialWorker.disconnect connected).1.


(** ** Vocabulary of the further properties *)

(** A running worker has an open port. *)
Definition consistent (w : SerialWorker.t) : bool :=
  implb (SerialWorker.is_running w) (SerialWorker.port_is_open w).

(** What has been written on the port of the worker. *)
Definition written_of (w : SerialWorker.t) : list string :=
  match SerialWorker.serial_port w with
  | Some p => SerialWorker.written p
  | None => []
  end.

(** [send_command] called for each command in turn, every write
    succeeding. *)
Fixpoint send_all (cmds : list string) (w : SerialWorker.t)
  : SerialWorker.t * list SerialWorker.signal :=
  match cmds with
  | [] => (w, [])
  | cmd :: rest =>
      let '(w1, out1) := SerialWorker.send_command cmd None w in
      let '(w2, out2) := send_all rest w1 in
      (w2, out1 ++ out2)
  end.

(** ** More of Python *)

(** [l[i]] for an integer [i]: a negative index counts from the end; [None]
    stands for [IndexError]. *)
Definition py_getitem {A} (l : list A) (i : Z) : option A :=
  let n := Z.of_nat (length l) in
  if (i <? 0)%Z
  then if (i + n <? 0)%Z then None else l !! Z.to_nat (i + n)
  else l !! Z.to_nat i.

(** [s.replace(old, new)] for a non-empty [old]: the occurrences of [old]
    are replaced from left to right, without overlap. [skip] counts the
    characters of a replaced occurrence still to pass over. *)
Fixpoint replace_from (old new : string) (skip : nat) (s : string) : string :=
  match s with
  | "" => ""
  | String c r =>
      match skip with
      | S k => replace_from old new k r
      | O =>
          if String.prefix old s
          then new +:+ replace_from old new (String.length old - 1) r
          else String c (replace_from old new 0 r)
      end
  end.

Definition replace (old new s : string) : string := replace_from old new 0 s.

(** The string is empty or begins with a character that is not
    whitespace. *)
Definition starts_clean (s : string) : bool :=
  match s with
  | "" => true
  | String c _ => negb (Py_UNICODE_ISSPACE c)
  end.

(** The double quote. *)
Definition DQ : string := String (ascii_of_N 34) "".

(** ** The controls of the window *)

Module Controls.

Inductive widget :=
| led_widgets (i : nat)
| led_checks (i : nat)
| relay_btns (i : nat)
| cmd_input.

Inductive control_call :=
| setState (w : widget) (b : bool)
| setText (w : widget) (s : string)
| setChecked (w : widget) (b : bool)
| clear (w : widget).

(** The window with its controls: the check boxes of the three LEDs hold
    a state, and the calls on the controls are recorded in order. *)
Record t := {
  window : MainWindow.t;
  led_isChecked : list bool;
  control_calls : list control_call
}.

Definition init : t :=
  {| window := MainWindow.init;
     led_isChecked := [false; false; false];
     control_calls := [] |}.

Definition M (A : Type) : Type := t -> MainWindow.result A * t.

#[export] Instance M_ret : MRet M := fun A a c => (MainWindow.Ok a, c).

#[export] Instance M_bind : MBind M := fun A B f m c =>
  match m c with
  | (MainWindow.Ok a, c') => f a c'
  | (MainWindow.Raise e, c') => (MainWindow.Raise e, c')
  end.

Definition raise {A} (e : MainWindow.exn) : M A :=
  fun c => (MainWindow.Raise e, c).

Definition call (x : control_call) : M unit := fun c =>
  (MainWindow.Ok tt,
   {| window := window c;
      led_isChecked := led_isChecked c;
      control_calls := control_calls c ++ [x] |}).

(** A method of [MainWindow] modelled above, run on the window. *)
Definition lift {A} (m : MainWindow.M A) : M A := fun c =>
  let '(r, win) := m (window c) in
  (r, {| window := win;
         led_isChecked := led_isChecked c;
         control_calls := control_calls c |}).

Definition from_option {A} (e : MainWindow.exn) (o : option A) : M A :=
  match o with
  | Some a => mret a
  | None => raise e
  end.

(** The lists built by [create_gpio_tab]. *)
Definition led_widgets_list : list widget := map led_widgets (seq 0 3).
Definition relay_btns_list : list widget := map relay_btns (seq 0 4).

Definition on_off (state : bool) : string := if state then "ON" else "OFF".

(** The command lines of the GPIO and PWM controls. *)
Definition led_command (num : Z) (state : bool) : string :=
  "GPIO:LED" +:+ py_str num +:+ " " +:+ on_off state.

Definition relay_command (num : Z) (state : bool) : string :=
  "GPIO:RELAY" +:+ py_str num +:+ " " +:+ on_off state.

Definition pwm_duty_command (channel duty : Z) : string :=
  "PWM" +:+ py_str channel +:+ ":DUTY " +:+ py_str duty.

Definition pwm_freq_command (channel freq : Z) : string :=
  "PWM" +:+ py_str channel +:+ ":FREQ " +:+ py_str freq.

Definition toggle_led (num : Z) (state : bool)
    (write_error : option string) : M unit :=
  lift (MainWindow.send_command (led_command num state) write_error);;
  led ← from_option MainWindow.IndexError
          (py_getitem led_widgets_list (num - 1));
  call (setState led state).

Definition toggle_relay (num : Z) (state : bool)
    (write_error : option string) : M unit :=
  lift (MainWindow.send_command (relay_command num state) write_error);;
  btn ← from_option MainWindow.IndexError
          (py_getitem relay_btns_list (num - 1));
  call (setText btn ("Relay " +:+ py_str num +:+ LF +:+ on_off state)).

Definition set_pwm (channel duty : Z) (write_error : option string)
  : M unit :=
  lift (MainWindow.send_command (pwm_duty_command channel duty) write_error).

Definition set_pwm_freq (channel freq : Z) (write_error : option string)
  : M unit :=
  lift (MainWindow.send_command (pwm_freq_command channel freq) write_error).

(** [send_custom_command]; [text] is the text of the input line. *)
Definition send_custom_command (text : string)
    (write_error : option string) : M unit :=
  let cmd := strip text in
  if str_is_empty cmd then mret tt
  else lift (MainWindow.send_command cmd write_error);;
       call (clear cmd_input).

(** [self.led_checks[i].setChecked(b)]. The box emits [toggled] when its
    state changes, and [toggled] of box [i] is connected to
    [toggle_led(i + 1, checked)]. *)
Definition led_checks_setChecked (i : nat) (b : bool)
    (write_error : option string) : M unit := fun c =>
  match led_isChecked c !! i with
  | Some old =>
      let c1 := {| window := window c;
                   led_isChecked := <[i := b]> (led_isChecked c);
                   control_calls :=
                     control_calls c ++ [setChecked (led_checks i) b] |} in
      if Bool.eqb old b then (MainWindow.Ok tt, c1)
      else toggle_led (Z.of_nat i + 1) b write_error c1
  | None => (MainWindow.Raise MainWindow.IndexError, c)
  end.

(** [for i in range(3): body(i)] *)
Fixpoint for_each (indices : list nat) (body : nat -> M unit) : M unit :=
  match indices with
  | [] => mret tt
  | i :: rest => body i;; for_each rest body
  end.

(** [all_leds]; [write_error i] is the outcome of the write that the
    change of box [i] may cause. *)
Definition all_leds (state : bool) (write_error : nat -> option string)
  : M unit :=
  for_each (seq 0 3) (fun i => led_checks_setChecked i state (write_error i)).

Definition toggle_single_led (idx : Z) (write_error : nat -> option string)
  : M unit :=
  for_each (seq 0 3)
    (fun i => led_checks_setChecked i (Z.of_nat i =? idx)%Z (write_error i)).

(** [closeEvent]; [reply_yes] is the answer to the question asked when
    the worker is running. The result says what was done to the event. *)
Inductive close_event := event_untouched | event_accepted | event_ignored.

Definition closeEvent (reply_yes : bool) (w : SerialWorker.t)
  : SerialWorker.t * close_event :=
  if SerialWorker.is_running w then
    if reply_yes then ((SerialWorker.disconnect w).1, event_accepted)
    else (w, event_ignored)
  else (w, event_untouched).

End Controls.

(** ** The log *)

Module Log.

Inductive log_call :=
| append (html : string)
| insertRow (row : nat)
| setItem (row column : nat) (text : string).

Definition colors : gmap string string :=
  <["info" := "black"]> (<["error" := "red"]>
    (<["rx" := "green"]> (<["tx" := "blue"]> ∅))).

Section LogMessage.

(** [str.upper], of the library. *)
Variable upper : string -> string.

(** [log_message]: [now] is the time as [strftime] prints it, [logging]
    says whether the logging button is checked, [rowCount] is the number
    of rows of the data table. *)
Definition log_message (now : string) (logging : bool) (rowCount : nat)
    (msg msg_type : string) : list log_call :=
  let timestamp := substring 0 (String.length now - 3) now in
  let color := default "black" (colors !! msg_type) in
  append ("<span style=" +:+ DQ +:+ "color: " +:+ color +:+ DQ +:+ ">["
          +:+ timestamp +:+ "] " +:+ msg +:+ "</span>") ::
  if logging then
    let row := rowCount in
    [insertRow row; setItem row 0 timestamp; setItem row 1 (upper msg_type)]
    ++ (if String.eqb msg_type "tx"
        then [setItem row 2 (replace "TX: " "" msg)]
        else if String.eqb msg_type "rx"
             then [setItem row 3 (replace "RX: " "" msg)]
             else [setItem row 4 msg])
  else [].

End LogMessage.


End Log.
(** * Properties *)

(** ** Characters and strings *)

Ltac each_char c := destruct c as [[] [] [] [] [] [] [] []].

Lemma is_decimal_ascii c :
  is_decimal c = true ->
  (ord c <? 127)%N = true /\ (ord c <? 128)%N = true /\
  Py_ISSPACE c = false /\ Ascii.eqb c "," = false /\
  Ascii.eqb c ":" = false /\ Ascii.eqb c "_" = false /\
  Py_UNICODE_ISDIGIT c = true /\
  Ascii.eqb c "+" = false /\ Ascii.eqb c "-" = false.
Proof.
  each_char c; vm_compute; intros H; try discriminate H;
    repeat split; discriminate.
Qed.

Lemma isdigit_not_decimal c :
  Py_UNICODE_ISDIGIT c = true -> is_decimal c = false ->
  (ord c <? 127)%N = false /\ (ord c <? 128)%N = false /\
  Py_UNICODE_ISSPACE c = false.
Proof.
  each_char c; vm_compute; intros H1 H2;
    try discriminate H1; try discriminate H2; repeat split.
Qed.

Lemma str_all_impl (p q : ascii -> bool) s :
  (forall c, p c = true -> q c = true) ->
  str_all p s = true -> str_all q s = true.
Proof.
  intros Hpq. induction s as [|c r IH]; simpl; [easy|].
  rewrite !andb_true_iff. intros [Hc Hr]. auto.
Qed.

Lemma str_all_app p s1 s2 :
  str_all p (s1 +:+ s2) = str_all p s1 && str_all p s2.
Proof.
  induction s1 as [|c r IH]; simpl; [easy|].
  now rewrite IH, andb_assoc.
Qed.

Lemma str_in_app_r sub s1 s2 :
  str_in sub s2 = true -> str_in sub (s1 +:+ s2) = true.
Proof.
  intros H. induction s1 as [|c r IH]; simpl; [exact H|].
  rewrite IH. apply orb_true_r.
Qed.

Lemma str_in_prefix sub s :
  String.prefix sub s = true -> str_in sub s = true.
Proof. intros H. destruct s; cbn [str_in]; rewrite H; reflexivity. Qed.

(** A string without the separator is not split. *)
Lemma split_none sep s :
  str_all (fun c => negb (Ascii.eqb c sep)) s = true -> split sep s = [s].
Proof.
  induction s as [|c r IH]; simpl; [easy|].
  rewrite andb_true_iff, negb_true_iff. intros [Hc Hr].
  rewrite Hc, (IH Hr). reflexivity.
Qed.

(** The first separator ends the first part. *)
Lemma split_app sep s1 s2 :
  str_all (fun c => negb (Ascii.eqb c sep)) s1 = true ->
  split sep (s1 +:+ String sep s2) = s1 :: split sep s2.
Proof.
  induction s1 as [|c r IH]; simpl.
  - intros _. now rewrite Ascii.eqb_refl.
  - rewrite andb_true_iff, negb_true_iff. intros [Hc Hr].
    rewrite Hc, (IH Hr). reflexivity.
Qed.

Lemma split_not_nil sep s : split sep s <> [].
Proof.
  destruct s as [|c r]; simpl; [easy|].
  destruct (Ascii.eqb c sep); [easy|]. now destruct (split sep r).
Qed.

(** ** [int] and [str] *)

Lemma append_cons c r t : String c r +:+ t = String c (r +:+ t).
Proof. reflexivity. Qed.

Lemma append_empty_r s : s +:+ "" = s.
Proof.
  induction s as [|c r IH]; [reflexivity|].
  now rewrite append_cons, IH.
Qed.

Lemma decimal_value_cons c r d :
  Py_UNICODE_TODECIMAL c = Some d ->
  decimal_value (String c r) =
    (d * 10 ^ Z.of_nat (String.length r) + decimal_value r)%Z.
Proof. intros H. cbn [decimal_value]. now rewrite H. Qed.

(** The scan reads a run of digits to its end. [t] is what follows the
    run: anything at which the scan stops. *)
Lemma scan_digits_run p : forall acc t,
  str_all is_decimal p = true ->
  (forall a, scan_digits false true a t = Some (a, t)) ->
  scan_digits false true acc (p +:+ t) =
    Some ((acc * 10 ^ Z.of_nat (String.length p) + decimal_value p)%Z, t).
Proof.
  induction p as [|c r IH]; intros acc t Hp Ht.
  - cbn [String.append String.length decimal_value]. rewrite Ht.
    do 2 f_equal. change (Z.of_nat 0) with 0%Z. lia.
  - cbn [str_all] in Hp. apply andb_true_iff in Hp as [Hc Hr].
    unfold is_decimal in Hc.
    destruct (Py_UNICODE_TODECIMAL c) as [d|] eqn:Hd; [|discriminate].
    rewrite append_cons. cbn [scan_digits]. rewrite Hd, (IH _ _ Hr Ht).
    rewrite (decimal_value_cons _ _ _ Hd). do 2 f_equal.
    cbn [String.length]. rewrite Nat2Z.inj_succ, Z.pow_succ_r by lia. ring.
Qed.

Lemma scan_digits_first seen c r acc :
  is_decimal c = true ->
  scan_digits false seen acc (String c r) =
  scan_digits false true acc (String c r).
Proof.
  unfold is_decimal. intros H. cbn [scan_digits].
  destruct (Py_UNICODE_TODECIMAL c); [reflexivity|discriminate].
Qed.

(** [int] of a non-empty string of decimal digits is its value. *)
Lemma py_int_digits s :
  str_is_empty s = false -> str_all is_decimal s = true ->
  py_int s = Some (decimal_value s).
Proof.
  intros Hne Hs. destruct s as [|c r]; [discriminate|].
  unfold py_int, to_ascii_digits.
  rewrite (str_all_impl is_decimal _ _ (fun c H => proj1 (proj2 (is_decimal_ascii c H))) Hs).
  pose proof Hs as Hs'. cbn [str_all] in Hs'.
  apply andb_true_iff in Hs' as [Hc _].
  destruct (is_decimal_ascii c Hc) as (_ & _ & Hsp & _ & _ & _ & _ & Hplus & Hminus).
  unfold PyLong_FromString. cbn [skip_space]. rewrite Hsp, Hplus, Hminus.
  rewrite (scan_digits_first _ _ _ _ Hc).
  pose proof (scan_digits_run (String c r) 0 "" Hs
                (fun a => eq_refl)) as Hrun.
  rewrite append_empty_r in Hrun. rewrite Hrun.
  cbn [skip_space str_is_empty]. f_equal. lia.
Qed.

Lemma todecimal_digit_char d :
  (d < 10)%N -> Py_UNICODE_TODECIMAL (digit_char d) = Some (Z.of_N d).
Proof.
  intros Hd. unfold Py_UNICODE_TODECIMAL, ord, digit_char.
  rewrite N_ascii_embedding by lia.
  destruct ((48 <=? 48 + d)%N && (48 + d <=? 57)%N) eqn:E.
  - f_equal. lia.
  - apply andb_false_iff in E as [E|E]; apply N.leb_gt in E; lia.
Qed.

Lemma digits_of_spec f : forall n acc,
  (n < 2 ^ N.of_nat f)%N ->
  str_all is_decimal acc = true ->
  f <> O ->
  str_all is_decimal (digits_of f n acc) = true /\
  str_is_empty (digits_of f n acc) = false /\
  decimal_value (digits_of f n acc) =
    (Z.of_N n * 10 ^ Z.of_nat (String.length acc) + decimal_value acc)%Z.
Proof.
  induction f as [|f IH]; intros n acc Hn Hacc Hf; [easy|].
  cbn [digits_of].
  assert (Hd : (n mod 10 < 10)%N) by (apply N.mod_lt; lia).
  pose proof (todecimal_digit_char _ Hd) as Hdc.
  assert (Hacc' : str_all is_decimal (String (digit_char (n mod 10)) acc) = true).
  { cbn [str_all]. unfold is_decimal at 1. now rewrite Hdc, Hacc. }
  pose proof (N.div_mod n 10 ltac:(lia)) as Hdm.
  destruct (n / 10 =? 0)%N eqn:E.
  - apply N.eqb_eq in E. repeat split; [exact Hacc'|].
    rewrite (decimal_value_cons _ _ _ Hdc). lia.
  - apply N.eqb_neq in E.
    assert (Hn' : (n / 10 < 2 ^ N.of_nat f)%N).
    { apply N.Div0.div_lt_upper_bound.
      rewrite Nat2N.inj_succ, N.pow_succ_r' in Hn. lia. }
    assert (Hf' : f <> O).
    { intros ->. change (2 ^ N.of_nat 0)%N with 1%N in Hn'. lia. }
    destruct (IH _ _ Hn' Hacc' Hf') as (H1 & H2 & H3).
    repeat split; [exact H1|exact H2|].
    rewrite H3, (decimal_value_cons _ _ _ Hdc). cbn [String.length].
    rewrite Nat2Z.inj_succ, Z.pow_succ_r by lia.
    rewrite Hdm at 3. rewrite N2Z.inj_add, N2Z.inj_mul. simpl Z.of_N. ring.
Qed.

Lemma py_str_N_spec n :
  str_all is_decimal (py_str_N n) = true /\
  str_is_empty (py_str_N n) = false /\
  decimal_value (py_str_N n) = Z.of_N n.
Proof.
  unfold py_str_N.
  destruct (digits_of_spec (S (N.to_nat (N.log2 n))) n "") as (H1 & H2 & H3);
    try easy.
  - rewrite Nat2N.inj_succ, N2Nat.id.
    destruct n as [|p]; [reflexivity|]. apply N.log2_spec. lia.
  - repeat split; [exact H1|exact H2|]. rewrite H3.
    cbn [String.length decimal_value]. change (Z.of_nat 0) with 0%Z. lia.
Qed.

(** [int(str(z)) = z]. *)
Lemma py_int_py_str z : py_int (py_str z) = Some z.
Proof.
  destruct z as [|p|p].
  - reflexivity.
  - unfold py_str. destruct (py_str_N_spec (Z.to_N (Z.pos p))) as (H1 & H2 & H3).
    rewrite (py_int_digits _ H2 H1), H3. f_equal; lia.
  - unfold py_str. destruct (py_str_N_spec (N.pos p)) as (H1 & H2 & H3).
    unfold py_int, to_ascii_digits. cbn [str_all].
    rewrite (str_all_impl is_decimal _ _
               (fun c H => proj1 (proj2 (is_decimal_ascii c H))) H1).
    change (ord "-" <? 128)%N with true. cbn [andb].
    unfold PyLong_FromString. cbn [skip_space].
    change (Py_ISSPACE "-") with false. cbv iota.
    change (Ascii.eqb "-" "+") with false.
    change (Ascii.eqb "-" "-") with true. cbv iota.
    destruct (py_str_N (N.pos p)) as [|c r] eqn:E; [discriminate|].
    pose proof H1 as H1'. cbn [str_all] in H1'.
    apply andb_true_iff in H1' as [Hc _].
    rewrite (scan_digits_first _ _ _ _ Hc).
    pose proof (scan_digits_run (String c r) 0 "" H1
                  (fun a => eq_refl)) as Hrun.
    rewrite append_empty_r in Hrun. rewrite Hrun.
    cbn [skip_space str_is_empty]. rewrite H3. f_equal; lia.
Qed.

(** ** Methods of the window and the calls they make *)

Lemma add_calls_nil w : add_calls [] w = w.
Proof. destruct w. unfold add_calls. simpl. now rewrite app_nil_r. Qed.

Lemma add_calls_app cs1 cs2 w :
  add_calls cs2 (add_calls cs1 w) = add_calls (cs1 ++ cs2) w.
Proof. unfold add_calls. simpl. now rewrite app_assoc. Qed.

Lemma emits_ret {A} (a : A) : emits (mret a) (Ok a) [].
Proof. intros w. now rewrite add_calls_nil. Qed.

Lemma emits_raise {A} e : emits (@raise A e) (Raise e) [].
Proof. intros w. now rewrite add_calls_nil. Qed.

Lemma emits_call c : emits (call c) (Ok tt) [c].
Proof. intros w. reflexivity. Qed.

Lemma emits_bind_ok {A B} (m : M A) (f : A -> M B) a cs1 r cs2 :
  emits m (Ok a) cs1 -> emits (f a) r cs2 -> emits (m ≫= f) r (cs1 ++ cs2).
Proof.
  intros Hm Hf w. unfold mbind, M_bind. now rewrite Hm, Hf, add_calls_app.
Qed.

Lemma emits_bind_raise {A B} (m : M A) (f : A -> M B) e cs :
  emits m (Raise e) cs -> emits (m ≫= f) (Raise e) cs.
Proof. intros Hm w. unfold mbind, M_bind. now rewrite Hm. Qed.

Lemma emits_try m r cs :
  emits m r cs -> emits (try_except_pass m) (Ok tt) cs.
Proof.
  intros Hm w. unfold try_except_pass. rewrite Hm. now destruct r.
Qed.

Lemma emits_some {A B} e (o : option A) (f : A -> M B) a r cs :
  o = Some a -> emits (f a) r cs -> emits (from_option e o ≫= f) r cs.
Proof.
  intros -> Hf. apply (emits_bind_ok _ _ a [] r cs); [apply emits_ret|exact Hf].
Qed.

Lemma emits_none {A B} e (o : option A) (f : A -> M B) :
  o = None -> emits (from_option e o ≫= f) (Raise e) [].
Proof. intros ->. apply emits_bind_raise, emits_raise. Qed.

Lemma emits_some_ex {A B} e (o : option A) (f : A -> M B) a cs :
  o = Some a ->
  (exists e', emits (f a) (Raise e') cs) ->
  exists e', emits (from_option e o ≫= f) (Raise e') cs.
Proof. intros Ho [e' H]. exists e'. now apply (emits_some e o f a). Qed.

(** What a method emits is determined. *)
Lemma emits_inj {A} (m : M A) r1 cs1 r2 cs2 :
  emits m r1 cs1 -> emits m r2 cs2 -> r1 = r2 /\ cs1 = cs2.
Proof.
  intros H1 H2. pose proof (H1 MainWindow.init) as E.
  rewrite (H2 MainWindow.init) in E. now inversion E.
Qed.

(** ** The analog rule *)

Lemma emits_analog_update ch1 ch2 :
  emits (call (setValue analog1_progress ch1);;
         call (setText analog1_label (py_str ch1 +:+ " mV"));;
         call (setValue analog2_progress ch2);;
         call (setText analog2_label (py_str ch2 +:+ " mV")))
        (Ok tt) (analog_update ch1 ch2).
Proof.
  unfold analog_update.
  repeat (eapply (emits_bind_ok _ _ tt [_]); [apply emits_call|]).
  apply emits_call.
Qed.

(** When the two fields read as integers, the body makes the update. *)
Lemma analog_body_ok data ch1 ch2 :
  analog_fields data = Some (ch1, ch2) ->
  emits (analog_body data) (Ok tt) (analog_update ch1 ch2).
Proof.
  unfold analog_fields, analog_body, getitem, int.
  destruct (split "," data) as [|s0 [|s1 rest]]; try discriminate.
  destruct (split ":" s0) as [|k0 [|v0 r0]] eqn:H0; try discriminate.
  destruct (split ":" s1) as [|k1 [|v1 r1]] eqn:H1; try discriminate.
  destruct (py_int v0) as [a|] eqn:Ha; try discriminate.
  destruct (py_int v1) as [b|] eqn:Hb; try discriminate.
  intros [= <- <-].
  eapply emits_some; [reflexivity|]. rewrite H0.
  eapply emits_some; [reflexivity|].
  eapply emits_some; [exact Ha|].
  eapply emits_some; [reflexivity|]. rewrite H1.
  eapply emits_some; [reflexivity|].
  eapply emits_some; [exact Hb|].
  apply emits_analog_update.
Qed.

(** Otherwise it raises before any call is made. *)
Lemma analog_body_fail data :
  analog_fields data = None ->
  exists e, emits (analog_body data) (Raise e) [].
Proof.
  unfold analog_fields, analog_body, getitem, int.
  destruct (split "," data) as [|s0 rest] eqn:Hs.
  { now apply split_not_nil in Hs. }
  intros H.
  eapply emits_some_ex; [reflexivity|].
  destruct (split ":" s0) as [|k0 [|v0 r0]] eqn:H0;
    try (eexists; apply emits_none; reflexivity).
  eapply emits_some_ex; [reflexivity|].
  destruct (py_int v0) as [a|] eqn:Ha;
    [|eexists; apply emits_none; reflexivity].
  eapply emits_some_ex; [reflexivity|].
  destruct rest as [|s1 rest];
    [eexists; apply emits_none; reflexivity|].
  eapply emits_some_ex; [reflexivity|].
  destruct (split ":" s1) as [|k1 [|v1 r1]] eqn:H1;
    try (eexists; apply emits_none; reflexivity).
  eapply emits_some_ex; [reflexivity|].
  destruct (py_int v1) as [b|] eqn:Hb; [discriminate|].
  eexists; apply emits_none; reflexivity.
Qed.

Lemma analog_body_cases data :
  (exists ch1 ch2, analog_fields data = Some (ch1, ch2) /\
     emits (analog_body data) (Ok tt) (analog_update ch1 ch2)) \/
  (analog_fields data = None /\
     exists e, emits (analog_body data) (Raise e) []).
Proof.
  destruct (analog_fields data) as [[a b]|] eqn:E.
  - left. exists a, b. split; [reflexivity|]. now apply analog_body_ok.
  - right. split; [reflexivity|]. now apply analog_body_fail.
Qed.

Lemma append_assoc s1 s2 s3 : (s1 +:+ s2) +:+ s3 = s1 +:+ (s2 +:+ s3).
Proof.
  induction s1 as [|c r IH]; [reflexivity|].
  now rewrite !append_cons, IH.
Qed.

Lemma py_str_chars z :
  str_all (fun c => is_decimal c || Ascii.eqb c "-") (py_str z) = true.
Proof.
  assert (H : forall n,
    str_all (fun c => is_decimal c || Ascii.eqb c "-") (py_str_N n) = true).
  { intros n. destruct (py_str_N_spec n) as (H & _).
    apply (str_all_impl is_decimal); [|exact H].
    intros c ->. reflexivity. }
  destruct z; unfold py_str; [apply H|apply H|].
  cbn [str_all]. rewrite H. reflexivity.
Qed.

Lemma number_char_not_sep c :
  is_decimal c || Ascii.eqb c "-" = true ->
  negb (Ascii.eqb c ",") = true /\ negb (Ascii.eqb c ":") = true.
Proof. each_char c; vm_compute; intros H; try discriminate H; now split. Qed.

Lemma py_str_no_comma z :
  str_all (fun c => negb (Ascii.eqb c ",")) (py_str z) = true.
Proof.
  apply (str_all_impl _ _ _ (fun c H => proj1 (number_char_not_sep c H))).
  apply py_str_chars.
Qed.

Lemma py_str_no_colon z :
  str_all (fun c => negb (Ascii.eqb c ":")) (py_str z) = true.
Proof.
  apply (str_all_impl _ _ _ (fun c H => proj2 (number_char_not_sep c H))).
  apply py_str_chars.
Qed.

(** The line the device sends for the pair [(a, b)]. *)
Lemma analog_fields_line a b :
  analog_fields ("CH1:" +:+ py_str a +:+ ",CH2:" +:+ py_str b) = Some (a, b).
Proof.
  unfold analog_fields.
  change (",CH2:" +:+ py_str b) with (String "," ("CH2:" +:+ py_str b)).
  rewrite <- append_assoc, split_app.
  2:{ rewrite str_all_app, py_str_no_comma. reflexivity. }
  rewrite split_none.
  2:{ rewrite str_all_app, py_str_no_comma. reflexivity. }
  change ("CH1:" +:+ py_str a) with ("CH1" +:+ String ":" (py_str a)).
  change ("CH2:" +:+ py_str b) with ("CH2" +:+ String ":" (py_str b)).
  rewrite !split_app by reflexivity.
  rewrite !split_none by apply py_str_no_colon.
  now rewrite !py_int_py_str.
Qed.

Lemma prefix_append s t : String.prefix s (s +:+ t) = true.
Proof.
  induction s as [|c r IH]; [now destruct t|].
  rewrite append_cons. cbn [String.prefix].
  destruct (ascii_dec c c); [exact IH|congruence].
Qed.

Lemma trigger_analog_line da db :
  trigger Analog ("CH1:" +:+ da +:+ ",CH2:" +:+ db) = true.
Proof.
  unfold trigger. apply andb_true_iff. split.
  - apply str_in_prefix, prefix_append.
  - rewrite <- append_assoc. apply str_in_app_r.
    change (",CH2:" +:+ db) with (String "," ("CH2:" +:+ db)).
    cbn [str_in]. rewrite (str_in_prefix "CH2:" ("CH2:" +:+ db))
      by apply prefix_append.
    apply orb_true_r.
Qed.

Lemma parse_response_analog data :
  trigger Analog data = true ->
  parse_response data = try_except_pass (analog_body data).
Proof. unfold trigger, parse_response. now intros ->. Qed.

(** C3. For every pair of integers [a] and [b] in [0, 3300], the line
    [CH1:<a>,CH2:<b>] makes [parse_response] end normally after exactly the
    analog update of channels 1 and 2 with the pair [(a, b)]: the two
    progress bars are set to [a] and [b] and the two labels to the same
    numbers in millivolts; nothing else of the window changes. *)
Theorem C3_analog_line_updates_pair (a b : Z) :
  (0 <= a <= 3300)%Z -> (0 <= b <= 3300)%Z ->
  emits (parse_response ("CH1:" +:+ py_str a +:+ ",CH2:" +:+ py_str b))
        (Ok tt) (analog_update a b).
Proof.
  intros _ _. rewrite parse_response_analog by apply trigger_analog_line.
  eapply emits_try, analog_body_ok, analog_fields_line.
Qed.

Lemma C3_witness :
  MainWindow.parse_response "CH1:1650,CH2:2200" MainWindow.init =
  (Ok tt, add_calls (analog_update 1650 2200) MainWindow.init).
Proof.
  apply (C3_analog_line_updates_pair 1650 2200); lia.
Defined.

(** ** The digital rule *)

Lemma values_of_lookup kvs : forall (values : gmap string Z) key,
  values_of kvs values !! key =
  match last_value key kvs with
  | Some v => Some v
  | None => values !! key
  end.
Proof.
  induction kvs as [|[k v] rest IH]; intros values key; [reflexivity|].
  unfold values_of in *. cbn [fold_left last_value fst snd].
  rewrite IH. destruct (last_value key rest); [reflexivity|].
  rewrite lookup_insert. destruct (String.eqb_spec k key) as [->|Hne].
  - now rewrite decide_True.
  - now rewrite decide_False.
Qed.

Lemma last_value_present key kvs :
  (exists v, last_value key kvs = Some v) <-> In key (map fst kvs).
Proof.
  induction kvs as [|[k v] rest IH]; cbn [last_value map fst In].
  - split; [intros [v H]; discriminate|intros []].
  - destruct (last_value key rest) as [v'|].
    + split; [intros _; right; apply IH; eauto|eauto].
    + destruct (String.eqb_spec k key) as [->|Hne].
      * split; [now left|eauto].
      * split; [intros [? H]; discriminate|].
        intros [H|H]; [contradiction|]. apply IH in H as [? H]. discriminate.
Qed.

Lemma collect_values_ok parts : forall values kvs,
  parse_pairs parts = Some kvs ->
  emits (collect_values parts values) (Ok (values_of kvs values)) [].
Proof.
  induction parts as [|part rest IH]; intros values kvs.
  - intros [= <-]. apply emits_ret.
  - cbn [parse_pairs collect_values]. unfold parse_pair, int.
    destruct (split ":" part) as [|key [|val [|x l]]]; try discriminate.
    destruct (py_int val) as [v|] eqn:Hv; try discriminate.
    destruct (parse_pairs rest) as [kvs'|] eqn:Hr; try discriminate.
    intros [= <-]. cbn [unpack2].
    apply (emits_bind_ok _ _ (key, val) [] _ []); [apply emits_ret|].
    eapply emits_some; [exact Hv|]. apply (IH _ _ eq_refl).
Qed.

Lemma collect_values_fail parts : forall values,
  parse_pairs parts = None ->
  exists e, emits (collect_values parts values) (Raise e) [].
Proof.
  induction parts as [|part rest IH]; intros values; [discriminate|].
  cbn [parse_pairs collect_values]. unfold parse_pair, int.
  destruct (split ":" part) as [|key [|val [|x l]]];
    try (intros _; eexists; apply emits_bind_raise, emits_raise).
  cbn [unpack2].
  destruct (py_int val) as [v|] eqn:Hv.
  - destruct (parse_pairs rest) as [kvs'|] eqn:Hr; [discriminate|].
    intros _. destruct (IH (<[key:=v]> values) eq_refl) as [e He].
    exists e. apply (emits_bind_ok _ _ (key, val) [] _ []); [apply emits_ret|].
    eapply emits_some; [exact Hv|]. exact He.
  - intros _. eexists.
    apply (emits_bind_ok _ _ (key, val) [] _ []); [apply emits_ret|].
    apply emits_none. exact Hv.
Qed.

Lemma emits_show_input name led label state :
  digital_labels !! name = Some (led, label) ->
  emits (show_input led label state) (Ok tt) (digital_update name state).
Proof.
  intros H. unfold digital_update, show_input. rewrite H.
  repeat (eapply (emits_bind_ok _ _ tt [_]); [apply emits_call|]).
  apply emits_call.
Qed.

Lemma update_inputs_emits items (values : gmap string Z) :
  Forall (fun kn : string * string => is_Some (digital_labels !! kn.2)) items ->
  emits (update_inputs items values) (Ok tt)
        (flat_map (fun kn : string * string =>
                     match values !! kn.1 with
                     | Some v => digital_update kn.2 (negb (v =? 0)%Z)
                     | None => []
                     end) items).
Proof.
  induction 1 as [|[key name] rest [[led label] Hn] _ IH].
  - apply emits_ret.
  - cbn [update_inputs flat_map fst snd]. cbn [snd] in Hn.
    eapply (emits_bind_ok _ _ tt); [|exact IH].
    destruct (values !! key) as [v|]; [|apply emits_ret].
    eapply emits_some; [exact Hn|]. now apply emits_show_input.
Qed.

Lemma inputs_map_labelled :
  Forall (fun kn : string * string => is_Some (digital_labels !! kn.2))
         inputs_map.
Proof. repeat constructor; vm_compute; eauto. Qed.

Lemma digital_body_ok data kvs :
  segments data = Some kvs ->
  emits (digital_body data) (Ok tt) (digital_updates kvs).
Proof.
  unfold segments, digital_body. intros H.
  assert (E : emits (update_inputs inputs_map (values_of kvs ∅)) (Ok tt)
                    (digital_updates kvs)).
  { unfold digital_updates.
    erewrite flat_map_ext;
      [exact (update_inputs_emits _ _ inputs_map_labelled)|].
    intros [key name]. cbn [fst snd]. rewrite values_of_lookup, lookup_empty.
    now destruct (last_value key kvs). }
  exact (emits_bind_ok _ _ _ [] _ _ (collect_values_ok _ _ _ H) E).
Qed.

Lemma digital_body_fail data :
  segments data = None ->
  exists e, emits (digital_body data) (Raise e) [].
Proof.
  unfold segments, digital_body. intros H.
  destruct (collect_values_fail _ ∅ H) as [e He].
  exists e. now apply emits_bind_raise.
Qed.

Lemma parse_response_digital data :
  trigger Analog data = false -> trigger Digital data = true ->
  parse_response data = try_except_pass (digital_body data).
Proof. unfold trigger, parse_response. now intros -> ->. Qed.

(** ** The interrupt rule and the raw lines *)

Lemma str_in_other_first c sub s :
  is_decimal c = false -> str_all is_decimal s = true ->
  str_in (String c sub) s = false.
Proof.
  intros Hc. induction s as [|a r IH]; intros Hs; [reflexivity|].
  cbn [str_all] in Hs. apply andb_true_iff in Hs as [Ha Hr].
  cbn [str_in String.prefix].
  destruct (ascii_dec c a) as [->|_]; [congruence|]. now apply IH.
Qed.

Lemma digits_trigger_none s :
  str_all is_decimal s = true ->
  trigger Analog s = false /\ trigger Digital s = false.
Proof.
  intros Hs. unfold trigger.
  now rewrite !(str_in_other_first _ _ s) by (reflexivity || exact Hs).
Qed.

Lemma isdigit_digits s :
  str_is_empty s = false -> str_all is_decimal s = true -> isdigit s = true.
Proof.
  intros Hne Hs. unfold isdigit. rewrite Hne.
  apply (str_all_impl is_decimal); [|exact Hs].
  intros c Hc. apply (is_decimal_ascii c Hc).
Qed.

Lemma parse_response_interrupt data :
  trigger Analog data = false -> trigger Digital data = false ->
  isdigit data = true ->
  parse_response data = try_except_pass (interrupt_body data).
Proof. unfold trigger, parse_response. now intros -> -> ->. Qed.

Lemma parse_response_raw data :
  trigger Analog data = false -> trigger Digital data = false ->
  isdigit data = false ->
  parse_response data = mret tt.
Proof. unfold trigger, parse_response. now intros -> -> ->. Qed.

(** A string accepted by [isdigit] through a superscript is not pure
    ASCII, ... *)
Lemma superscript_not_ascii s :
  str_all Py_UNICODE_ISDIGIT s = true -> str_all is_decimal s = false ->
  str_all (fun c => (ord c <? 128)%N) s = false.
Proof.
  induction s as [|c r IH]; [discriminate|]. cbn [str_all].
  rewrite andb_true_iff. intros [Hc Hr] Hd.
  destruct (is_decimal c) eqn:E.
  - rewrite (IH Hr Hd). apply andb_false_r.
  - destruct (isdigit_not_decimal c Hc E) as (_ & -> & _). reflexivity.
Qed.

(** ... its rewriting is a run of digits and a question mark, ... *)
Lemma superscript_transform s :
  str_all Py_UNICODE_ISDIGIT s = true -> str_all is_decimal s = false ->
  exists p, str_all is_decimal p = true /\
            transform_decimal_and_space s = p +:+ "?".
Proof.
  induction s as [|c r IH]; [discriminate|]. cbn [str_all].
  rewrite andb_true_iff. intros [Hc Hr] Hd.
  cbn [transform_decimal_and_space].
  destruct (is_decimal c) eqn:E.
  - destruct (IH Hr Hd) as (p & Hp & ->).
    destruct (is_decimal_ascii c E) as (-> & _).
    exists (String c p). cbn [str_all]. now rewrite E, Hp.
  - destruct (isdigit_not_decimal c Hc E) as (-> & _ & ->).
    exists "". now split.
Qed.

(** ... and [int] rejects it. *)
Lemma py_int_superscript s :
  str_all Py_UNICODE_ISDIGIT s = true -> str_all is_decimal s = false ->
  py_int s = None.
Proof.
  intros Hs Hd. unfold py_int, to_ascii_digits.
  rewrite (superscript_not_ascii s Hs Hd).
  destruct (superscript_transform s Hs Hd) as (p & Hp & ->).
  destruct p as [|c r]; [reflexivity|].
  pose proof Hp as Hp'. cbn [str_all] in Hp'.
  apply andb_true_iff in Hp' as [Hc _].
  destruct (is_decimal_ascii c Hc)
    as (_ & _ & Hsp & _ & _ & _ & _ & Hplus & Hminus).
  unfold PyLong_FromString. rewrite append_cons. cbn [skip_space].
  rewrite Hsp, Hplus, Hminus.
  rewrite (scan_digits_first false c (r +:+ "?") 0 Hc), <- append_cons.
  rewrite (scan_digits_run (String c r) 0 "?" Hp (fun a => eq_refl)).
  reflexivity.
Qed.

Lemma emits_handle_data data cs :
  emits (parse_response data) (Ok tt) cs ->
  emits (handle_data data) (Ok tt) (raw_entry data ++ cs).
Proof.
  intros H. unfold handle_data, raw_entry.
  change (?a :: ?b :: ?c :: nil) with ([a] ++ [b] ++ [c]).
  rewrite <- !app_assoc.
  repeat (eapply (emits_bind_ok _ _ tt [_]); [apply emits_call|]).
  exact H.
Qed.

(** ** The classification of a line *)

Lemma interrupt_body_cases data :
  exists r cs, emits (interrupt_body data) r cs /\
    (py_int data = None -> cs = []) /\
    (forall v, py_int data = Some v -> r = Ok tt /\ cs = interrupt_update v).
Proof.
  unfold interrupt_body, int. destruct (py_int data) as [v|] eqn:E.
  - exists (Ok tt), (interrupt_update v). split; [|split].
    + eapply emits_some; [reflexivity|]. apply emits_call.
    + discriminate.
    + now intros ? [= <-].
  - exists (Raise ValueError), []. split; [|split].
    + now apply emits_none.
    + reflexivity.
    + discriminate.
Qed.

(** Every rule ends normally, and what it does depends on the line only. *)
Lemma handler_emits r data : exists cs, emits (handler r data) (Ok tt) cs.
Proof.
  destruct r; cbn [handler].
  - destruct (analog_body_cases data) as [(a & b & _ & H)|(_ & e & H)];
      eexists; eapply emits_try, H.
  - destruct (segments data) as [kvs|] eqn:E.
    + eexists. eapply emits_try, digital_body_ok, E.
    + destruct (digital_body_fail data E) as [e H].
      eexists. eapply emits_try, H.
  - destruct (interrupt_body_cases data) as (r & cs & H & _).
    eexists. eapply emits_try, H.
  - eexists. apply emits_ret.
Qed.

Lemma parse_response_first_match data :
  exists r, first_match data = Some r /\ trigger r data = true /\
            (forall r', rank r' < rank r -> trigger r' data = false) /\
            parse_response data = handler r data.
Proof.
  unfold first_match, rules. cbn [find].
  destruct (trigger Analog data) eqn:Ha.
  { exists Analog.
    split; [reflexivity|split; [exact Ha|split]];
      [|now apply parse_response_analog].
    intros r' H. cbn in H. lia. }
  destruct (trigger Digital data) eqn:Hd.
  { exists Digital.
    split; [reflexivity|split; [exact Hd|split]];
      [|now apply parse_response_digital].
    intros [] H; cbn in H; try lia. exact Ha. }
  destruct (trigger Interrupt data) eqn:Hi.
  { exists Interrupt.
    split; [reflexivity|split; [exact Hi|split]];
      [|now apply parse_response_interrupt].
    intros [] H; cbn in H; try lia; assumption. }
  exists Raw.
  split; [reflexivity|split; [reflexivity|split]];
    [|now apply parse_response_raw].
  intros [] H; cbn in H; try lia; assumption.
Qed.

Lemma parse_response_emits data :
  exists cs, emits (parse_response data) (Ok tt) cs.
Proof.
  destruct (parse_response_first_match data) as (r & _ & _ & _ & ->).
  apply handler_emits.
Qed.

(** C6. The classification is first-match-wins over the rules analog,
    digital, interrupt, raw: for every line there is one rule, the first of
    that order whose trigger the line satisfies (every earlier rule's
    trigger fails), and [parse_response] does what that rule alone does.
    The method ends normally and the calls it makes depend on the line
    only, not on the window it runs on. In particular a line that contains
    [CH1:] and [CH2:] as well as [B1:] and [B2:] is handled by the analog
    rule. *)
Theorem C6_first_match_wins :
  (forall data,
     exists r, first_match data = Some r /\ trigger r data = true /\
               (forall r', rank r' < rank r -> trigger r' data = false) /\
               parse_response data = handler r data /\
               exists cs, emits (parse_response data) (Ok tt) cs) /\
  (forall data,
     trigger Analog data = true -> trigger Digital data = true ->
     first_match data = Some Analog /\
     parse_response data = handler Analog data).
Proof.
  split.
  - intros data.
    destruct (parse_response_first_match data) as (r & H1 & H2 & H3 & H4).
    exists r. do 4 (split; [assumption|]).
    apply parse_response_emits.
  - intros data Ha _. split.
    + unfold first_match, rules. cbn [find]. now rewrite Ha.
    + now apply parse_response_analog.
Qed.

Lemma C6_witness :
  first_match "B1:1,B2:0,CH1:7,CH2:9" = Some Analog /\
  MainWindow.parse_response "B1:1,B2:0,CH1:7,CH2:9" =
  handler Analog "B1:1,B2:0,CH1:7,CH2:9".
Proof.
  apply (proj2 C6_first_match_wins "B1:1,B2:0,CH1:7,CH2:9"); reflexivity.
Defined.

(** C9. The analog rule is positional: for every line that contains
    [CH1:] and [CH2:], whose first two comma-separated segments have a
    second colon-separated field that reads as an integer, channel 1 gets
    the number of the first segment and channel 2 the number of the second,
    whatever the keys [k0] and [k1] of these segments and whatever segments
    [rest] follow. So [CH2:5,CH1:3] gives the pair (5, 3) and
    [CH1:1,CH2:2,CH3:9] the pair (1, 2). *)
Theorem C9_analog_rule_is_positional :
  (forall data s0 s1 rest k0 v0 r0 k1 v1 r1 ch1 ch2,
     trigger Analog data = true ->
     split "," data = s0 :: s1 :: rest ->
     split ":" s0 = k0 :: v0 :: r0 ->
     split ":" s1 = k1 :: v1 :: r1 ->
     py_int v0 = Some ch1 -> py_int v1 = Some ch2 ->
     emits (parse_response data) (Ok tt) (analog_update ch1 ch2)) /\
  emits (parse_response "CH2:5,CH1:3") (Ok tt) (analog_update 5 3) /\
  emits (parse_response "CH1:1,CH2:2,CH3:9") (Ok tt) (analog_update 1 2).
Proof.
  assert (G : forall data s0 s1 rest k0 v0 r0 k1 v1 r1 ch1 ch2,
     trigger Analog data = true ->
     split "," data = s0 :: s1 :: rest ->
     split ":" s0 = k0 :: v0 :: r0 ->
     split ":" s1 = k1 :: v1 :: r1 ->
     py_int v0 = Some ch1 -> py_int v1 = Some ch2 ->
     emits (parse_response data) (Ok tt) (analog_update ch1 ch2)).
  { intros data s0 s1 rest k0 v0 r0 k1 v1 r1 ch1 ch2 Ht Hs H0 H1 Ha Hb.
    rewrite (parse_response_analog _ Ht).
    eapply emits_try, analog_body_ok.
    unfold analog_fields. now rewrite Hs, H0, H1, Ha, Hb. }
  split; [exact G|]. split.
  - now apply (G "CH2:5,CH1:3" "CH2:5" "CH1:3" [] "CH2" "5" [] "CH1" "3" []).
  - now apply (G "CH1:1,CH2:2,CH3:9" "CH1:1" "CH2:2" ["CH3:9"]
                 "CH1" "1" [] "CH2" "2" []).
Qed.

Lemma C9_witness :
  emits (MainWindow.parse_response "X:5:1,Y:3,CH1:,CH2:") (Ok tt)
        (analog_update 5 3).
Proof.
  apply (proj1 C9_analog_rule_is_positional
           "X:5:1,Y:3,CH1:,CH2:" "X:5:1" "Y:3" ["CH1:"; "CH2:"]
           "X" "5" ["1"] "Y" "3" []); reflexivity.
Defined.

Lemma digital_labels_inputs :
  digital_labels !! "Button 1" = Some (LEDWidget 0, QLabel 0) /\
  digital_labels !! "Button 2" = Some (LEDWidget 1, QLabel 1) /\
  digital_labels !! "Sensor 1" = Some (LEDWidget 2, QLabel 2) /\
  digital_labels !! "Sensor 2" = Some (LEDWidget 3, QLabel 3).
Proof. repeat split; reflexivity. Qed.

(** The LED of a known input is set exactly when the line names its key,
    and then to the truth value of the last number given to that key. *)
Lemma digital_updates_led kvs key name led label b :
  In (key, name) inputs_map ->
  digital_labels !! name = Some (led, label) ->
  In (setState led b) (digital_updates kvs) <->
  exists v, last_value key kvs = Some v /\ b = negb (v =? 0)%Z.
Proof.
  destruct digital_labels_inputs as (L0 & L1 & L2 & L3).
  unfold digital_updates, inputs_map, digital_update.
  cbn [flat_map fst snd]. rewrite L0, L1, L2, L3.
  intros Hin Hl.
  destruct (last_value "B1" kvs) as [v0|] eqn:E0;
  destruct (last_value "B2" kvs) as [v1|] eqn:E1;
  destruct (last_value "S1" kvs) as [v2|] eqn:E2;
  destruct (last_value "S2" kvs) as [v3|] eqn:E3;
  cbn [app In];
  repeat (destruct Hin as [[= <- <-]|Hin]);
  try contradiction;
  first [rewrite L0 in Hl | rewrite L1 in Hl | rewrite L2 in Hl
        | rewrite L3 in Hl];
  injection Hl as <- <-;
  first [rewrite E0 | rewrite E1 | rewrite E2 | rewrite E3];
  (split;
   [ intros H; repeat (destruct H as [H|H]; try discriminate H);
     try contradiction; injection H as <-; eauto
   | intros (v & Hv & ->); try discriminate Hv; injection Hv as <-;
     tauto ]).
Qed.

(** C1, as the code has it. For every line that contains [B1:] and [B2:]
    (and not both [CH1:] and [CH2:]) and whose comma-separated segments all
    read as [key:integer], in any order, [parse_response] ends normally
    after exactly the digital updates of the known keys [B1], [B2], [S1],
    [S2] that the line names: the LED of such an input is set to true when
    the last number given to its key is not zero and to false otherwise,
    an input whose key is absent gets no update, and keys other than the
    four are ignored. *)
Theorem C1_digital_updates_for_present_keys data kvs :
  trigger Analog data = false ->
  trigger Digital data = true ->
  segments data = Some kvs ->
  emits (parse_response data) (Ok tt) (digital_updates kvs) /\
  (forall key name led label b,
     In (key, name) inputs_map ->
     digital_labels !! name = Some (led, label) ->
     In (setState led b) (digital_updates kvs) <->
     exists v, last_value key kvs = Some v /\ b = negb (v =? 0)%Z) /\
  (forall key, (exists v, last_value key kvs = Some v) <->
               In key (map fst kvs)).
Proof.
  intros Ha Hd Hs. split; [|split].
  - rewrite (parse_response_digital _ Ha Hd).
    eapply emits_try, digital_body_ok, Hs.
  - intros. now apply (digital_updates_led kvs key name led label b).
  - intros key. apply last_value_present.
Qed.

Lemma C1_witness :
  emits (MainWindow.parse_response "S2:0,B2:1,X:7,B1:1") (Ok tt)
        (digital_update "Button 1" true ++ digital_update "Button 2" true ++
         digital_update "Sensor 2" false).
Proof.
  apply (C1_digital_updates_for_present_keys "S2:0,B2:1,X:7,B1:1"
           [("S2", 0%Z); ("B2", 1%Z); ("X", 7%Z); ("B1", 1%Z)]);
    reflexivity.
Defined.

(** The line [B1:1,S2:0] names the keys [B1] and [S2] with values 1 and 0,
    yet [parse_response] makes no call at all for it: without [B2:] the
    digital rule is not entered. *)
Lemma C1_counterexample :
  segments "B1:1,S2:0" = Some [("B1", 1%Z); ("S2", 0%Z)] /\
  MainWindow.parse_response "B1:1,S2:0" MainWindow.init =
  (Ok tt, MainWindow.init).
Proof. split; reflexivity. Qed.

(** C2. A line taken by the analog or by the digital rule whose parsing
    fails at any point changes nothing: [parse_response] never raises,
    whatever the line; when the body of a rule raises, no call has been
    made and the window is as before; and for a line of the analog rule
    whose two fields do not both read as integers, or a line of the digital
    rule with a segment that does not read as [key:integer],
    [parse_response] makes no call and [handle_data] leaves only the entry
    of the received line in the log. *)
Theorem C2_failed_parse_changes_nothing :
  (forall data w, exists w', parse_response data w = (Ok tt, w')) /\
  (forall data w e w',
     analog_body data w = (Raise e, w') \/
     digital_body data w = (Raise e, w') -> w' = w) /\
  (forall data,
     trigger Analog data = true /\ analog_fields data = None \/
     trigger Analog data = false /\ trigger Digital data = true /\
       segments data = None ->
     emits (parse_response data) (Ok tt) [] /\
     emits (handle_data data) (Ok tt) (raw_entry data)).
Proof.
  split; [|split].
  - intros data w.
    destruct (parse_response_first_match data) as (r & _ & _ & _ & ->).
    destruct (handler_emits r data) as [cs H]. rewrite H. eauto.
  - intros data w e w' [H|H].
    + destruct (analog_body_cases data) as [(a & b & _ & E)|(_ & e' & E)];
        rewrite E in H; [discriminate|].
      injection H as _ <-. apply add_calls_nil.
    + destruct (segments data) as [kvs|] eqn:Hs.
      * rewrite (digital_body_ok _ _ Hs) in H. discriminate.
      * destruct (digital_body_fail _ Hs) as [e' E]. rewrite E in H.
        injection H as _ <-. apply add_calls_nil.
  - intros data H.
    assert (E : emits (parse_response data) (Ok tt) []).
    { destruct H as [[Ht Hf]|(Ha & Hd & Hs)].
      - rewrite (parse_response_analog _ Ht).
        destruct (analog_body_fail _ Hf) as [e E]. eapply emits_try, E.
      - rewrite (parse_response_digital _ Ha Hd).
        destruct (digital_body_fail _ Hs) as [e E]. eapply emits_try, E. }
    split; [exact E|].
    rewrite <- (app_nil_r (raw_entry data)). now apply emits_handle_data.
Qed.

Lemma C2_witness :
  emits (MainWindow.parse_response "CH1:abc,CH2:10") (Ok tt) [] /\
  emits (MainWindow.handle_data "B1:1,B2:") (Ok tt) (raw_entry "B1:1,B2:").
Proof.
  split.
  - apply (proj2 (proj2 C2_failed_parse_changes_nothing) "CH1:abc,CH2:10").
    left. split; reflexivity.
  - apply (proj2 (proj2 C2_failed_parse_changes_nothing) "B1:1,B2:").
    right. repeat split; reflexivity.
Defined.

(** C4. For every non-empty string of decimal digits, [parse_response]
    ends normally after exactly one update of the interrupt counter, with
    the decimal value of the string (42 for [042]). For every string with a
    character that is not a decimal digit and that neither the analog nor
    the digital rule takes, [parse_response] makes no call, and all that
    [handle_data] leaves is the entry of the line, as received, in the
    log. *)
Theorem C4_digits_update_counter_else_raw :
  (forall s,
     str_is_empty s = false -> str_all is_decimal s = true ->
     emits (parse_response s) (Ok tt) (interrupt_update (decimal_value s))) /\
  decimal_value "042" = 42%Z /\
  (forall s,
     str_all is_decimal s = false ->
     trigger Analog s = false -> trigger Digital s = false ->
     emits (parse_response s) (Ok tt) [] /\
     emits (handle_data s) (Ok tt) (raw_entry s)).
Proof.
  split; [|split; [reflexivity|]].
  - intros s Hne Hs. destruct (digits_trigger_none s Hs) as [Ha Hd].
    rewrite (parse_response_interrupt _ Ha Hd (isdigit_digits _ Hne Hs)).
    destruct (interrupt_body_cases s) as (r & cs & H & _ & Hv).
    destruct (Hv _ (py_int_digits _ Hne Hs)) as [-> ->].
    eapply emits_try, H.
  - intros s Hs Ha Hd.
    assert (E : emits (parse_response s) (Ok tt) []).
    { destruct (isdigit s) eqn:Hi.
      - rewrite (parse_response_interrupt _ Ha Hd Hi).
        unfold isdigit in Hi. apply andb_true_iff in Hi as [_ Hi].
        destruct (interrupt_body_cases s) as (r & cs & H & Hn & _).
        rewrite (Hn (py_int_superscript _ Hi Hs)) in H.
        eapply emits_try, H.
      - rewrite (parse_response_raw _ Ha Hd Hi). apply emits_ret. }
    split; [exact E|].
    rewrite <- (app_nil_r (raw_entry s)). now apply emits_handle_data.
Qed.

Lemma C4_witness :
  emits (MainWindow.parse_response "042") (Ok tt) (interrupt_update 42) /\
  emits (MainWindow.handle_data "ESP32 ready") (Ok tt)
        (raw_entry "ESP32 ready").
Proof.
  split.
  - apply (proj1 C4_digits_update_counter_else_raw "042"); reflexivity.
  - apply (proj2 (proj2 C4_digits_update_counter_else_raw) "ESP32 ready");
      reflexivity.
Defined.

(** ** The serial worker *)

Lemma disconnect_closed w :
  SerialWorker.port_is_open (SerialWorker.disconnect w).1 = false /\
  SerialWorker.is_running (SerialWorker.disconnect w).1 = false /\
  (SerialWorker.disconnect w).2 = [].
Proof.
  destruct w as [[[n b o wr]|] r]; [destruct o|]; repeat split.
Qed.

(** The methods of the worker that the window calls emit nothing but
    [error_occurred]. *)
Lemma window_calls_emit_errors_only :
  (forall name baud open_error w,
     forallb is_error_occurred
       (SerialWorker.connect_port name baud open_error w).1.2 = true) /\
  (forall w, forallb is_error_occurred (SerialWorker.disconnect w).2 = true) /\
  (forall cmd write_error w,
     forallb is_error_occurred
       (SerialWorker.send_command cmd write_error w).2 = true).
Proof.
  split; [|split].
  - now intros name baud [e|] w.
  - intros w. now destruct (disconnect_closed w) as (_ & _ & ->).
  - intros cmd [e|] [[[n b o wr]|] r]; try reflexivity; now destruct o.
Qed.

(** C8. [disconnect] is idempotent: from any state of the worker, a second
    call in succession leaves the worker exactly as the first call left it
    (not running, the port closed), and neither call emits a signal; there
    is no error to raise in either. *)
Theorem C8_disconnect_idempotent (w : SerialWorker.t) :
  SerialWorker.disconnect (SerialWorker.disconnect w).1 =
    ((SerialWorker.disconnect w).1, []) /\
  (SerialWorker.disconnect w).2 = [] /\
  SerialWorker.port_is_open (SerialWorker.disconnect w).1 = false /\
  SerialWorker.is_running (SerialWorker.disconnect w).1 = false.
Proof.
  destruct w as [[[n b o wr]|] r]; [destruct o|]; repeat split.
Qed.

(** C5, as the code has it. [SerialWorker.send_command] on a connection
    that is not open is a silent no-operation: the worker is unchanged
    (nothing is written) and no signal is emitted, whatever the line. The
    report is made one level up: [MainWindow.send_command], when the worker
    is not running, sends nothing and shows the warning [Not Connected];
    this is the case after [disconnect], which leaves the worker not
    running and the port not open. *)
Theorem C5_send_on_closed_connection :
  (forall cmd write_error w,
     SerialWorker.port_is_open w = false ->
     SerialWorker.send_command cmd write_error w = (w, [])) /\
  (forall cmd write_error win,
     SerialWorker.is_running (serial_worker win) = false ->
     MainWindow.send_command cmd write_error win =
     (Ok tt,
      add_calls [QMessageBox_warning "Not Connected" "Please connect first"]
                win)) /\
  (forall w,
     SerialWorker.port_is_open (SerialWorker.disconnect w).1 = false /\
     SerialWorker.is_running (SerialWorker.disconnect w).1 = false).
Proof.
  split; [|split].
  - intros cmd we [[[n b o wr]|] r]; cbn; [|reflexivity].
    now intros ->.
  - intros cmd we win H. unfold MainWindow.send_command. now rewrite H.
  - intros w. destruct (disconnect_closed w) as (H1 & H2 & _). now split.
Qed.

Lemma C5_witness :
  SerialWorker.send_command "AIN:ALL?" None SerialWorker.init =
    (SerialWorker.init, []) /\
  MainWindow.send_command "AIN:ALL?" None MainWindow.init =
    (Ok tt,
     add_calls [QMessageBox_warning "Not Connected" "Please connect first"]
               MainWindow.init).
Proof.
  split.
  - apply (proj1 C5_send_on_closed_connection). reflexivity.
  - apply (proj1 (proj2 C5_send_on_closed_connection)). reflexivity.
Defined.

(** After [connect_port] and [disconnect] the connection is not open, and
    [send_command] returns with the worker unchanged and without any
    signal: no failure is raised or reported by it. *)
Lemma C5_counterexample :
  SerialWorker.port_is_open after_disconnect = false /\
  SerialWorker.send_command "AIN:ALL?" None after_disconnect =
    (after_disconnect, []) /\
  existsb is_error_occurred
    (SerialWorker.send_command "AIN:ALL?" None after_disconnect).2 = false.
Proof. repeat split. Qed.

Lemma iteration_no_fault p w :
  SerialWorker.port_is_open w = true -> is_fault p = false ->
  SerialWorker.iteration p w = (w, delivered [p]).
Proof.
  intros Ho Hp. unfold SerialWorker.iteration, delivered. rewrite Ho.
  destruct p as [|s|e]; [reflexivity| |discriminate].
  cbn [flat_map]. rewrite app_nil_r. now destruct (str_is_empty (strip s)).
Qed.

(** Polls without a fault are all consumed and the loop goes on. *)
Lemma run_no_fault pre : forall rest w,
  SerialWorker.is_running w = true ->
  SerialWorker.port_is_open w = true ->
  forallb (fun p => negb (is_fault p)) pre = true ->
  SerialWorker.run (pre ++ rest) w =
  ((SerialWorker.run rest w).1.1,
   delivered pre ++ (SerialWorker.run rest w).1.2,
   (SerialWorker.run rest w).2).
Proof.
  induction pre as [|p pre IH]; intros rest w Hr Ho Hp.
  - change ([] ++ rest) with rest.
    now destruct (SerialWorker.run rest w) as [[? ?] ?].
  - cbn [forallb] in Hp. apply andb_true_iff in Hp as [Hp1 Hp2].
    apply negb_true_iff in Hp1.
    cbn [app SerialWorker.run]. rewrite Hr.
    rewrite (iteration_no_fault p w Ho Hp1), (IH rest w Hr Ho Hp2).
    destruct (SerialWorker.run rest w) as [[w2 out2] unread]. cbn.
    unfold delivered. cbn [flat_map]. now rewrite app_nil_r, app_assoc.
Qed.

Lemma filter_lost_delivered pre :
  filter is_connection_lost (delivered pre) = [].
Proof.
  induction pre as [|p pre IH]; [reflexivity|].
  unfold delivered in *. cbn [flat_map]. rewrite filter_app, IH, app_nil_r.
  destruct p as [|s|e]; try reflexivity.
  now destruct (str_is_empty (strip s)).
Qed.

(** The slots of the lines received make calls on the widgets only. *)
Lemma deliver_delivered env pre :
  exists cs, emits (deliver env (delivered pre)) (Ok tt) cs.
Proof.
  induction pre as [|p pre [cs IH]]; [eexists; apply emits_ret|].
  unfold delivered in *. cbn [flat_map].
  destruct p as [|s|e]; try (exists cs; exact IH).
  destruct (str_is_empty (strip s)); [exists cs; exact IH|].
  cbn [app deliver slot].
  destruct (parse_response_emits (strip s)) as [cs' H'].
  eexists. eapply (emits_bind_ok _ _ tt); [|exact IH].
  apply emits_handle_data, H'.
Qed.

Lemma deliver_app env sigs1 : forall sigs2 w,
  deliver env (sigs1 ++ sigs2) w =
  match deliver env sigs1 w with
  | (Ok _, w') => deliver env sigs2 w'
  | (Raise e, w') => (Raise e, w')
  end.
Proof.
  induction sigs1 as [|s sigs1 IH]; intros sigs2 w; [reflexivity|].
  cbn [app deliver]. unfold mbind, M_bind.
  destruct (slot env s w) as [[a|e] w1]; [apply IH|reflexivity].
Qed.

(** The slot of [connection_lost] releases the connection. *)
Lemma handle_disconnect_closes env win :
  exists win',
    handle_disconnect env win = (Ok tt, win') /\
    serial_worker win' = (SerialWorker.disconnect (serial_worker win)).1 /\
    connect_btn_isChecked win' = false.
Proof.
  destruct win as [[[[n b o wr]|] r] chk cs]; [destruct o|];
    eexists; (split; [reflexivity|]); split; reflexivity.
Qed.

(** C7. When a poll of the running worker fails, after polls [pre] that
    did not, the loop stops there: the worker is left not running, the
    polls [post] that follow are never made (no further line is read), and
    the signals emitted are the lines of [pre], then one [error_occurred]
    and one [connection_lost], the only one. Once the window has run the
    slots of these signals the connection is closed: the worker is not
    running, its port is not open and the connect button is unchecked. *)
Theorem C7_read_fault_ends_loop pre e post (w : SerialWorker.t) :
  SerialWorker.is_running w = true ->
  SerialWorker.port_is_open w = true ->
  forallb (fun p => negb (is_fault p)) pre = true ->
  SerialWorker.run (pre ++ SerialWorker.fault e :: post) w =
    ({| SerialWorker.serial_port := SerialWorker.serial_port w;
        SerialWorker.is_running := false |},
     delivered pre ++
       [SerialWorker.error_occurred ("Read error: " +:+ e);
        SerialWorker.connection_lost],
     post) /\
  length (filter is_connection_lost
            (SerialWorker.run (pre ++ SerialWorker.fault e :: post) w).1.2)
    = 1 /\
  (forall env win,
     serial_worker win = w ->
     exists win',
       worker_thread env (pre ++ SerialWorker.fault e :: post) win =
         (Ok post, win') /\
       SerialWorker.is_running (serial_worker win') = false /\
       SerialWorker.port_is_open (serial_worker win') = false /\
       connect_btn_isChecked win' = false).
Proof.
  intros Hr Ho Hp.
  assert (E : SerialWorker.run (pre ++ SerialWorker.fault e :: post) w =
    ({| SerialWorker.serial_port := SerialWorker.serial_port w;
        SerialWorker.is_running := false |},
     delivered pre ++
       [SerialWorker.error_occurred ("Read error: " +:+ e);
        SerialWorker.connection_lost],
     post)).
  { rewrite (run_no_fault pre _ w Hr Ho Hp).
    cbn [SerialWorker.run]. rewrite Hr. unfold SerialWorker.iteration.
    rewrite Ho. destruct post; reflexivity. }
  split; [exact E|split].
  - rewrite E. cbn [fst snd]. now rewrite filter_app, filter_lost_delivered.
  - intros env win <-.
    unfold worker_thread, on_worker, mbind, M_bind. rewrite E. cbn [fst snd].
    rewrite deliver_app.
    destruct (deliver_delivered env pre) as [cs ->].
    cbn [deliver slot]. unfold mbind, M_bind, handle_error. cbn [call].
    match goal with
    | |- context [handle_disconnect env ?x] =>
        destruct (handle_disconnect_closes env x) as (win' & -> & Hw & Hc)
    end.
    exists win'. split; [reflexivity|].
    rewrite Hw.
    match goal with
    | |- context [SerialWorker.disconnect ?x] =>
        destruct (disconnect_closed x) as (H1 & H2 & _)
    end.
    now rewrite H1, H2.
Qed.

Lemma C7_witness :
  SerialWorker.run
    ([SerialWorker.line "CH1:1650,CH2:2200"; SerialWorker.no_data] ++
     SerialWorker.fault "device removed" :: [SerialWorker.line "7"])
    connected =
  ({| SerialWorker.serial_port := SerialWorker.serial_port connected;
      SerialWorker.is_running := false |},
   [SerialWorker.data_received "CH1:1650,CH2:2200";
    SerialWorker.error_occurred "Read error: device removed";
    SerialWorker.connection_lost],
   [SerialWorker.line "7"]).
Proof.
  apply (C7_read_fault_ends_loop
           [SerialWorker.line "CH1:1650,CH2:2200"; SerialWorker.no_data]
           "device removed" [SerialWorker.line "7"] connected);
    reflexivity.
Defined.

(** C10. The reader never delivers an empty line: in every run of the
    loop, from any state of the worker, each [data_received] signal carries
    a non-empty line, which is the stripped text of one of the lines read;
    and an iteration whose line is empty once stripped emits nothing and
    leaves the worker as it was. *)
Theorem C10_no_empty_line_delivered :
  (forall polls w d,
     In (SerialWorker.data_received d) (SerialWorker.run polls w).1.2 ->
     str_is_empty d = false /\
     exists s, In (SerialWorker.line s) polls /\ d = strip s) /\
  (forall s w,
     str_is_empty (strip s) = true ->
     SerialWorker.iteration (SerialWorker.line s) w = (w, [])).
Proof.
  split.
  - induction polls as [|p rest IH]; intros w d.
    + cbn [SerialWorker.run]. now destruct (SerialWorker.is_running w).
    + cbn [SerialWorker.run].
      destruct (SerialWorker.is_running w); [|intros []].
      destruct (SerialWorker.iteration p w) as [w1 out1] eqn:E1.
      specialize (IH w1 d).
      destruct (SerialWorker.run rest w1) as [[w2 out2] unread].
      cbn [fst snd] in *. rewrite in_app_iff. intros [H|H].
      * unfold SerialWorker.iteration in E1.
        destruct (SerialWorker.port_is_open w);
          [|injection E1 as <- <-; destruct H].
        destruct p as [|s|e].
        -- injection E1 as <- <-. destruct H.
        -- destruct (str_is_empty (strip s)) eqn:Es;
             injection E1 as <- <-; [destruct H|].
           destruct H as [[= <-]|[]]. split; [exact Es|].
           exists s. split; [now left|reflexivity].
        -- injection E1 as <- <-.
           destruct H as [H|[H|[]]]; discriminate H.
      * destruct (IH H) as (Hd & s & Hs & ->).
        split; [exact Hd|]. exists s. split; [now right|reflexivity].
  - intros s w H. unfold SerialWorker.iteration. rewrite H.
    now destruct (SerialWorker.port_is_open w).
Qed.

Lemma C10_witness :
  (str_is_empty "OK" = false /\
   exists s, In (SerialWorker.line s)
               [SerialWorker.line "   "; SerialWorker.line " OK "] /\
             "OK" = strip s) /\
  SerialWorker.iteration (SerialWorker.line "   ") connected =
    (connected, []).
Proof.
  split.
  - apply (proj1 C10_no_empty_line_delivered
             [SerialWorker.line "   "; SerialWorker.line " OK "] connected).
    cbn. now left.
  - apply (proj2 C10_no_empty_line_delivered "   " connected). reflexivity.
Defined.

(** * Further properties *)

(** ** The reader loop *)

Lemma run_stopped polls w :
  SerialWorker.is_running w = false ->
  SerialWorker.run polls w = (w, [], polls).
Proof. intros H. destruct polls; cbn [SerialWorker.run]; now rewrite H. Qed.

Lemma delivered_app polls1 polls2 :
  delivered (polls1 ++ polls2) = delivered polls1 ++ delivered polls2.
Proof. apply flat_map_app. Qed.

(** X1. While no poll fails, a running worker with an open port reads
    every poll and stays as it is, and the signals it emits are the
    non-empty stripped lines, in the order read; reading [polls1] and then
    [polls2] emits what reading each of them emits, one after the other. *)
Theorem run_delivers_all_in_order polls1 polls2 (w : SerialWorker.t) :
  SerialWorker.is_running w = true ->
  SerialWorker.port_is_open w = true ->
  forallb (fun p => negb (is_fault p)) (polls1 ++ polls2) = true ->
  SerialWorker.run (polls1 ++ polls2) w =
    (w, delivered polls1 ++ delivered polls2, []) /\
  (SerialWorker.run (polls1 ++ polls2) w).1.2 =
    (SerialWorker.run polls1 w).1.2 ++ (SerialWorker.run polls2 w).1.2.
Proof.
  intros Hr Ho Hp.
  assert (G : forall polls,
    forallb (fun p => negb (is_fault p)) polls = true ->
    SerialWorker.run polls w = (w, delivered polls, [])).
  { intros polls H. rewrite <- (app_nil_r polls) at 1.
    rewrite (run_no_fault polls [] w Hr Ho H).
    cbn [SerialWorker.run]. rewrite Hr. cbn [fst snd].
    now rewrite app_nil_r. }
  pose proof Hp as Hp'. rewrite forallb_app in Hp'.
  apply andb_true_iff in Hp' as [H1 H2].
  rewrite (G _ Hp), (G _ H1), (G _ H2), delivered_app. now split.
Qed.

Lemma run_delivers_all_in_order_witness :
  SerialWorker.run
    ([SerialWorker.line " 12 "; SerialWorker.no_data] ++
     [SerialWorker.line ""; SerialWorker.line "B1:1,B2:0"]) connected =
  (connected,
   [SerialWorker.data_received "12"] ++
   [SerialWorker.data_received "B1:1,B2:0"], []).
Proof.
  apply (run_delivers_all_in_order
           [SerialWorker.line " 12 "; SerialWorker.no_data]
           [SerialWorker.line ""; SerialWorker.line "B1:1,B2:0"] connected);
    reflexivity.
Defined.

(** One iteration either leaves the worker as it is and emits no
    [connection_lost], or stops it and emits exactly one. *)
Lemma iteration_cases p w :
  (SerialWorker.iteration p w).1 = w /\
    filter is_connection_lost (SerialWorker.iteration p w).2 = [] \/
  SerialWorker.is_running (SerialWorker.iteration p w).1 = false /\
    SerialWorker.serial_port (SerialWorker.iteration p w).1 =
      SerialWorker.serial_port w /\
    filter is_connection_lost (SerialWorker.iteration p w).2 =
      [SerialWorker.connection_lost].
Proof.
  unfold SerialWorker.iteration.
  destruct (SerialWorker.port_is_open w); [|now left].
  destruct p as [|s|e]; [now left| |now right].
  left. now destruct (str_is_empty (strip s)).
Qed.

(** X2. Whatever the polls and whatever the state of the worker, a run of
    the loop emits [connection_lost] at most once. *)
Theorem run_at_most_one_connection_lost polls (w : SerialWorker.t) :
  length (filter is_connection_lost (SerialWorker.run polls w).1.2) <= 1.
Proof.
  revert w. induction polls as [|p rest IH]; intros w.
  - cbn [SerialWorker.run]. destruct (SerialWorker.is_running w); cbn; lia.
  - cbn [SerialWorker.run].
    destruct (SerialWorker.is_running w) eqn:Hr; [|cbn; lia].
    pose proof (iteration_cases p w) as Hc.
    destruct (SerialWorker.iteration p w) as [w1 out1]. cbn [fst snd] in Hc.
    destruct Hc as [[-> Hf]|(Hs & _ & Hf)].
    + specialize (IH w).
      destruct (SerialWorker.run rest w) as [[w2 out2] unread].
      cbn [fst snd] in *. now rewrite filter_app, Hf.
    + rewrite (run_stopped rest w1 Hs). cbn [fst snd].
      rewrite app_nil_r, Hf. cbn. lia.
Qed.

(** X3. The loop never opens, closes or replaces the port, and it never
    sets the worker running: after any run the port is the one the run
    started with, and the worker runs only if it ran before. In particular
    a read fault leaves the port open. *)
Theorem run_keeps_port polls (w : SerialWorker.t) :
  SerialWorker.serial_port (SerialWorker.run polls w).1.1 =
    SerialWorker.serial_port w /\
  (SerialWorker.is_running (SerialWorker.run polls w).1.1 = true ->
   SerialWorker.is_running w = true).
Proof.
  revert w. induction polls as [|p rest IH]; intros w.
  - cbn [SerialWorker.run].
    destruct (SerialWorker.is_running w) eqn:Hr; cbn; split; congruence.
  - cbn [SerialWorker.run].
    destruct (SerialWorker.is_running w) eqn:Hr;
      [|cbn; split; congruence].
    pose proof (iteration_cases p w) as Hc.
    destruct (SerialWorker.iteration p w) as [w1 out1]. cbn [fst snd] in Hc.
    destruct Hc as [[-> _]|(Hs & Hp & _)].
    + specialize (IH w).
      destruct (SerialWorker.run rest w) as [[w2 out2] unread].
      cbn [fst snd] in *. split; [apply IH|reflexivity].
    + rewrite (run_stopped rest w1 Hs). cbn [fst snd]. now split.
Qed.

Lemma run_keeps_port_witness :
  SerialWorker.is_running
    (SerialWorker.run [SerialWorker.line "1"] connected).1.1 = true /\
  SerialWorker.is_running connected = true.
Proof.
  split; [reflexivity|].
  apply (proj2 (run_keeps_port [SerialWorker.line "1"] connected)).
  reflexivity.
Defined.

(** X4. With the port not open the loop is silent: whatever the polls, it
    emits no signal and leaves the worker exactly as it was. *)
Theorem run_closed_port_is_silent polls (w : SerialWorker.t) :
  SerialWorker.port_is_open w = false ->
  (SerialWorker.run polls w).1.1 = w /\ (SerialWorker.run polls w).1.2 = [].
Proof.
  intros Ho. induction polls as [|p rest IH].
  - cbn [SerialWorker.run]. now destruct (SerialWorker.is_running w).
  - cbn [SerialWorker.run]. destruct (SerialWorker.is_running w); [|easy].
    unfold SerialWorker.iteration. rewrite Ho.
    destruct (SerialWorker.run rest w) as [[w2 out2] unread].
    cbn [fst snd] in *. destruct IH as [-> ->]. now split.
Qed.

Lemma run_closed_port_is_silent_witness :
  (SerialWorker.run [SerialWorker.line "7"; SerialWorker.fault "gone"]
     after_disconnect).1.1 = after_disconnect /\
  (SerialWorker.run [SerialWorker.line "7"; SerialWorker.fault "gone"]
     after_disconnect).1.2 = [].
Proof.
  apply (run_closed_port_is_silent
           [SerialWorker.line "7"; SerialWorker.fault "gone"]
           after_disconnect).
  reflexivity.
Defined.

(** ** The operations of the worker *)

(** X5. A running worker always has an open port: this holds for the new
    worker and every operation of the worker keeps it ([disconnect] even
    establishes it). *)
Theorem running_implies_open :
  consistent SerialWorker.init = true /\
  (forall name baud open_error w,
     consistent w = true ->
     consistent (SerialWorker.connect_port name baud open_error w).1.1
       = true) /\
  (forall w, consistent (SerialWorker.disconnect w).1 = true) /\
  (forall cmd write_error w,
     consistent w = true ->
     consistent (SerialWorker.send_command cmd write_error w).1 = true) /\
  (forall polls w,
     consistent w = true ->
     consistent (SerialWorker.run polls w).1.1 = true).
Proof.
  split; [reflexivity|]. split; [|split; [|split]].
  - now intros name baud [e|] w H.
  - intros w. unfold consistent.
    now destruct (disconnect_closed w) as (_ & -> & _).
  - intros cmd [e|] [[[n b o wr]|] r] H; try exact H; now destruct o.
  - intros polls. induction polls as [|p rest IH]; intros w H.
    + cbn [SerialWorker.run]. now destruct (SerialWorker.is_running w).
    + cbn [SerialWorker.run].
      destruct (SerialWorker.is_running w) eqn:Hr; [|exact H].
      pose proof (iteration_cases p w) as Hc.
      destruct (SerialWorker.iteration p w) as [w1 out1].
      cbn [fst snd] in Hc. destruct Hc as [[-> _]|(Hs & _ & _)].
      * specialize (IH w H).
        now destruct (SerialWorker.run rest w) as [[w2 out2] unread].
      * rewrite (run_stopped rest w1 Hs). cbn [fst snd].
        unfold consistent. now rewrite Hs.
Qed.

Lemma running_implies_open_witness :
  consistent
    (SerialWorker.run [SerialWorker.line "1"; SerialWorker.fault "gone"]
       (SerialWorker.send_command "AIN:ALL?" None connected).1).1.1 = true.
Proof.
  apply (proj2 (proj2 (proj2 (proj2 running_implies_open)))).
  apply (proj1 (proj2 (proj2 (proj2 running_implies_open)))).
  apply (proj1 (proj2 running_implies_open)).
  apply (proj1 running_implies_open).
Defined.

(** X6. On an open port, commands sent one after the other are written in
    that order, each followed by one line feed, after what was written
    before; no signal is emitted, and the worker stays open and keeps its
    running flag. *)
Theorem send_all_writes_in_order cmds (w : SerialWorker.t) :
  SerialWorker.port_is_open w = true ->
  written_of (send_all cmds w).1 =
    written_of w ++ map (fun cmd => cmd +:+ LF) cmds /\
  (send_all cmds w).2 = [] /\
  SerialWorker.port_is_open (send_all cmds w).1 = true /\
  SerialWorker.is_running (send_all cmds w).1 = SerialWorker.is_running w.
Proof.
  revert w. induction cmds as [|cmd rest IH]; intros w Ho.
  - cbn. now rewrite app_nil_r.
  - cbn [send_all map].
    destruct w as [[[n b o wr]|] r]; [|discriminate]. cbn in Ho. subst o.
    cbn [SerialWorker.send_command SerialWorker.serial_port
         SerialWorker.is_open SerialWorker.is_running].
    match goal with
    | |- context [send_all rest ?x] =>
        specialize (IH x eq_refl); destruct (send_all rest x) as [w2 out2]
    end.
    cbn [fst snd] in *. destruct IH as (H1 & H2 & H3 & H4).
    rewrite H1, H2, H3, H4. cbn. now rewrite <- app_assoc.
Qed.

Lemma send_all_writes_in_order_witness :
  written_of (send_all ["*IDN?"; "AIN:ALL?"] connected).1 =
  written_of connected ++ map (fun cmd => cmd +:+ LF) ["*IDN?"; "AIN:ALL?"].
Proof.
  apply (send_all_writes_in_order ["*IDN?"; "AIN:ALL?"] connected).
  reflexivity.
Defined.

(** ** Received lines *)

(** X7. [handle_data] never fails, whatever the line: it first enters the
    line, as received, in the log and flashes the RX indicator, and then
    makes exactly the calls of [parse_response]; the worker and the
    connect button are not touched. *)
Theorem handle_data_logs_then_parses data :
  exists cs,
    emits (parse_response data) (Ok tt) cs /\
    emits (handle_data data) (Ok tt) (raw_entry data ++ cs) /\
    forall w,
      serial_worker (handle_data data w).2 = serial_worker w /\
      connect_btn_isChecked (handle_data data w).2 =
        connect_btn_isChecked w.
Proof.
  destruct (parse_response_emits data) as [cs H]. exists cs.
  split; [exact H|]. pose proof (emits_handle_data data cs H) as E.
  split; [exact E|]. intros w. now rewrite E.
Qed.


Lemma last_value_nodup key kvs :
  List.NoDup (map fst kvs) ->
  forall v, last_value key kvs = Some v <-> In (key, v) kvs.
Proof.
  induction kvs as [|[k v0] rest IH]; cbn [map fst last_value In].
  - intros _ v. split; [discriminate|intros []].
  - intros Hnd v. apply List.NoDup_cons_iff in Hnd as [Hk Hnd].
    specialize (IH Hnd).
    destruct (last_value key rest) as [v'|] eqn:E.
    + split.
      * intros [= ->]. right. now apply IH.
      * intros [[= -> ->]|H].
        -- exfalso. apply Hk. apply in_map_iff.
           exists (key, v'). split; [reflexivity|]. now apply IH.
        -- now apply IH.
    + destruct (String.eqb_spec k key) as [->|Hne].
      * split; [intros [= ->]; now left|].
        intros [[= ->]|H]; [reflexivity|]. apply IH in H. discriminate.
      * split; [discriminate|].
        intros [[= -> ->]|H]; [contradiction|]. apply IH in H. discriminate.
Qed.

Lemma last_value_permutation key kvs kvs' :
  Permutation kvs kvs' -> List.NoDup (map fst kvs) ->
  last_value key kvs = last_value key kvs'.
Proof.
  intros Hp Hnd.
  assert (Hnd' : List.NoDup (map fst kvs')).
  { eapply Permutation_NoDup; [|exact Hnd]. now apply Permutation_map. }
  destruct (last_value key kvs) as [v|] eqn:E.
  - symmetry. apply (last_value_nodup key kvs' Hnd' v).
    eapply Permutation_in; [exact Hp|]. now apply last_value_nodup.
  - destruct (last_value key kvs') as [v|] eqn:E'; [|reflexivity].
    apply (last_value_nodup key kvs' Hnd' v) in E'.
    apply (Permutation_in _ (Permutation_sym Hp)) in E'.
    apply (last_value_nodup key kvs Hnd v) in E'. congruence.
Qed.

(** X9. The order of the segments of a digital line does not matter: two
    lines of the digital rule whose segments are the same [key:integer]
    pairs in another order, no key repeated, make [parse_response] do
    exactly the same, the updates coming in the order of the known keys
    [B1], [B2], [S1], [S2]. *)
Theorem digital_line_order_irrelevant data data' kvs kvs' :
  trigger Analog data = false -> trigger Digital data = true ->
  trigger Analog data' = false -> trigger Digital data' = true ->
  segments data = Some kvs -> segments data' = Some kvs' ->
  Permutation kvs kvs' -> List.NoDup (map fst kvs) ->
  forall w, parse_response data w = parse_response data' w.
Proof.
  intros Ha Hd Ha' Hd' Hs Hs' Hp Hnd w.
  rewrite (parse_response_digital _ Ha Hd), (parse_response_digital _ Ha' Hd').
  rewrite (emits_try _ _ _ (digital_body_ok _ _ Hs)).
  rewrite (emits_try _ _ _ (digital_body_ok _ _ Hs')).
  do 2 f_equal. unfold digital_updates. apply flat_map_ext.
  intros [key name]. cbn [fst snd].
  now rewrite (last_value_permutation key kvs kvs' Hp Hnd).
Qed.

Lemma digital_line_order_irrelevant_witness :
  MainWindow.parse_response "B1:1,B2:0,S1:1" MainWindow.init =
  MainWindow.parse_response "S1:1,B1:1,B2:0" MainWindow.init.
Proof.
  apply (digital_line_order_irrelevant
           "B1:1,B2:0,S1:1" "S1:1,B1:1,B2:0"
           [("B1", 1%Z); ("B2", 0%Z); ("S1", 1%Z)]
           [("S1", 1%Z); ("B1", 1%Z); ("B2", 0%Z)]);
    try reflexivity.
  - apply Permutation_sym.
    exact (Permutation_cons_append [("B1", 1%Z); ("B2", 0%Z)] ("S1", 1%Z)).
  - repeat constructor; cbn; intuition discriminate.
Defined.

Lemma todecimal_range c d :
  Py_UNICODE_TODECIMAL c = Some d -> (0 <= d <= 9)%Z.
Proof.
  unfold Py_UNICODE_TODECIMAL.
  destruct ((48 <=? ord c)%N && (ord c <=? 57)%N) eqn:E; [|discriminate].
  apply andb_true_iff in E as [E1 E2].
  apply N.leb_le in E1, E2. intros [= <-]. lia.
Qed.

Lemma decimal_value_nonneg s : (0 <= decimal_value s)%Z.
Proof.
  induction s as [|c r IH]; [easy|]. cbn [decimal_value].
  destruct (Py_UNICODE_TODECIMAL c) as [d|] eqn:E; [|lia].
  apply todecimal_range in E.
  assert (0 <= 10 ^ Z.of_nat (String.length r))%Z by (apply Z.pow_nonneg; lia).
  nia.
Qed.

Lemma digital_updates_no_display kvs w v :
  ~ In (display w v) (digital_updates kvs).
Proof.
  unfold digital_updates. rewrite in_flat_map.
  intros ([key name] & _ & H). cbn [fst snd] in H.
  destruct (last_value key kvs); [|exact H].
  unfold digital_update in H.
  destruct (digital_labels !! name) as [[led label]|]; [|exact H].
  cbn in H. intuition discriminate.
Qed.

(** X10. The interrupt counter is only ever shown a number when the whole
    line is a non-empty string of decimal digits, and the number shown is
    then the decimal value of the line: it is never negative, and no other
    rule touches the counter. *)
Theorem counter_shows_only_digit_lines data cs v :
  emits (parse_response data) (Ok tt) cs ->
  In (display int_lcd v) cs ->
  str_is_empty data = false /\ str_all is_decimal data = true /\
  v = decimal_value data /\ (0 <= v)%Z.
Proof.
  intros H Hin.
  destruct (parse_response_first_match data) as (r & _ & Ht & _ & E).
  rewrite E in H. destruct r; cbn [handler trigger] in *.
  - exfalso.
    destruct (analog_body_cases data) as [(a & b & _ & B)|(_ & e & B)];
      destruct (emits_inj _ _ _ _ _ H (emits_try _ _ _ B)) as [_ ->];
      cbn in Hin; intuition discriminate.
  - exfalso. destruct (segments data) as [kvs|] eqn:Hs.
    + destruct (emits_inj _ _ _ _ _ H
                  (emits_try _ _ _ (digital_body_ok _ _ Hs))) as [_ ->].
      now apply digital_updates_no_display in Hin.
    + destruct (digital_body_fail _ Hs) as [e B].
      destruct (emits_inj _ _ _ _ _ H (emits_try _ _ _ B)) as [_ ->].
      destruct Hin.
  - unfold isdigit in Ht. apply andb_true_iff in Ht as [Hne Hd].
    apply negb_true_iff in Hne.
    destruct (interrupt_body_cases data) as (r & cs' & B & Hn & Hv).
    destruct (emits_inj _ _ _ _ _ H (emits_try _ _ _ B)) as [_ ->].
    destruct (str_all is_decimal data) eqn:Hdec.
    + destruct (Hv _ (py_int_digits _ Hne Hdec)) as [_ ->].
      destruct Hin as [[= <-]|[]].
      repeat split; try reflexivity; try assumption.
      apply decimal_value_nonneg.
    + rewrite (Hn (py_int_superscript _ Hd Hdec)) in Hin. destruct Hin.
  - destruct (emits_inj _ _ _ _ _ H (emits_ret tt)) as [_ ->]. destruct Hin.
Qed.

Lemma counter_shows_only_digit_lines_witness :
  str_is_empty "0017" = false /\ str_all is_decimal "0017" = true /\
  17%Z = decimal_value "0017" /\ (0 <= 17)%Z.
Proof.
  apply (counter_shows_only_digit_lines "0017" (interrupt_update 17) 17).
  - intros w. reflexivity.
  - now left.
Defined.

(** ** The connection seen from the window *)

Create HintDb window.
#[local] Hint Unfold toggle_connection MainWindow.send_command handle_error
  handle_disconnect isChecked on_worker connect_btn_setChecked call
  add_calls mbind M_bind mret M_ret : window.

Ltac unfold_window := repeat (progress (autounfold with window; cbn)).

(** X11. [toggle_connection] never fails and leaves the connect button and
    the worker in agreement: when a connect request (button checked) finds
    the worker not running, then afterwards the button is checked exactly
    when the worker runs, and a checked button means that the port was
    opened and is open. *)
Theorem toggle_connection_button_agrees env win :
  (connect_btn_isChecked win = true ->
   SerialWorker.is_running (serial_worker win) = false) ->
  exists win',
    toggle_connection env win = (Ok tt, win') /\
    connect_btn_isChecked win' =
      SerialWorker.is_running (serial_worker win') /\
    (connect_btn_isChecked win' = true ->
     open_error env = None /\
     SerialWorker.port_is_open (serial_worker win') = true).
Proof.
  destruct win as [[port running] checked cs].
  destruct env as [name rate [e|]]; destruct checked; cbn; intros H.
  - rewrite (H eq_refl). eexists. split; [reflexivity|]. now split.
  - destruct port as [[n b [] wr]|]; eexists;
      (split; [reflexivity|]); now split.
  - eexists. split; [reflexivity|]. now split.
  - destruct port as [[n b [] wr]|]; eexists;
      (split; [reflexivity|]); now split.
Qed.

Lemma toggle_connection_button_agrees_witness :
  exists win',
    toggle_connection
      {| port_text := "COM_TEST"; baud := 9600; open_error := None |}
      {| serial_worker := SerialWorker.init;
         connect_btn_isChecked := true; calls := [] |} = (Ok tt, win') /\
    connect_btn_isChecked win' =
      SerialWorker.is_running (serial_worker win') /\
    (connect_btn_isChecked win' = true ->
     None = @None string /\
     SerialWorker.port_is_open (serial_worker win') = true).
Proof.
  apply (toggle_connection_button_agrees
           {| port_text := "COM_TEST"; baud := 9600; open_error := None |}
           {| serial_worker := SerialWorker.init;
              connect_btn_isChecked := true; calls := [] |}).
  reflexivity.
Defined.

(** X12. A connect request whose port does not open changes nothing of the
    worker: the error text is entered in the log as an error, the connect
    button is unchecked again, and none of the "Connected" calls is
    made. *)
Theorem failed_connect_is_logged env e win :
  connect_btn_isChecked win = true ->
  open_error env = Some e ->
  toggle_connection env win =
  (Ok tt,
   {| serial_worker := serial_worker win;
      connect_btn_isChecked := false;
      calls := calls win ++ [log_message ("Error: " +:+ e) "error";
                             setChecked connect_btn false] |}).
Proof.
  destruct win as [w checked cs]. destruct env as [name rate oe].
  cbn. intros -> ->. unfold_window. now rewrite <- app_assoc.
Qed.

Lemma failed_connect_is_logged_witness :
  toggle_connection
    {| port_text := "COM9"; baud := 115200; open_error := Some "busy" |}
    {| serial_worker := SerialWorker.init;
       connect_btn_isChecked := true; calls := [] |} =
  (Ok tt,
   {| serial_worker := SerialWorker.init;
      connect_btn_isChecked := false;
      calls := [log_message "Error: busy" "error";
                setChecked connect_btn false] |}).
Proof.
  apply (failed_connect_is_logged
           {| port_text := "COM9"; baud := 115200;
              open_error := Some "busy" |} "busy"
           {| serial_worker := SerialWorker.init;
              connect_btn_isChecked := true; calls := [] |});
    reflexivity.
Defined.

(** X13. A command sent from the window of a running worker with an open
    port: when the write succeeds, the command and a line feed are added to
    what was written and the command is logged as transmitted; when the
    write raises, nothing is written, the error is entered in the log, and
    the command is still logged as transmitted and the TX indicator
    flashed. *)
Theorem window_send_logs_command cmd win :
  SerialWorker.is_running (serial_worker win) = true ->
  SerialWorker.port_is_open (serial_worker win) = true ->
  (written_of (serial_worker (MainWindow.send_command cmd None win).2) =
     written_of (serial_worker win) ++ [cmd +:+ LF] /\
   calls (MainWindow.send_command cmd None win).2 =
     calls win ++ [log_message ("TX: " +:+ cmd) "tx"; setState tx_led true;
                   singleShot 100 (setState tx_led false)]) /\
  (forall e,
     MainWindow.send_command cmd (Some e) win =
     (Ok tt,
      add_calls [log_message ("Error: " +:+ "Send error: " +:+ e) "error";
                 log_message ("TX: " +:+ cmd) "tx"; setState tx_led true;
                 singleShot 100 (setState tx_led false)] win)).
Proof.
  destruct win as [[[[n b o wr]|] running] checked cs]; cbn;
    intros -> Ho; [|discriminate]. subst o. split.
  - unfold_window. split; [reflexivity|]. now rewrite <- !app_assoc.
  - intros e. unfold_window. now rewrite <- !app_assoc.
Qed.

Lemma window_send_logs_command_witness :
  MainWindow.send_command "AIN:ALL?" (Some "timeout")
    {| serial_worker := connected; connect_btn_isChecked := true;
       calls := [] |} =
  (Ok tt,
   add_calls [log_message "Error: Send error: timeout" "error";
              log_message "TX: AIN:ALL?" "tx"; setState tx_led true;
              singleShot 100 (setState tx_led false)]
     {| serial_worker := connected; connect_btn_isChecked := true;
        calls := [] |}).
Proof.
  apply (window_send_logs_command "AIN:ALL?"
           {| serial_worker := connected; connect_btn_isChecked := true;
              calls := [] |}); reflexivity.
Defined.

Lemma run_until_fault pre e post w :
  SerialWorker.is_running w = true ->
  SerialWorker.port_is_open w = true ->
  forallb (fun p => negb (is_fault p)) pre = true ->
  SerialWorker.run (pre ++ SerialWorker.fault e :: post) w =
    ({| SerialWorker.serial_port := SerialWorker.serial_port w;
        SerialWorker.is_running := false |},
     delivered pre ++
       [SerialWorker.error_occurred ("Read error: " +:+ e);
        SerialWorker.connection_lost],
     post).
Proof.
  intros Hr Ho Hp. rewrite (run_no_fault pre _ w Hr Ho Hp).
  cbn [SerialWorker.run]. rewrite Hr. unfold SerialWorker.iteration.
  rewrite Ho. destruct post; reflexivity.
Qed.

(** The window once the slots of a run ended by a fault have run. *)
Lemma worker_thread_until_fault env pre e post win :
  SerialWorker.is_running (serial_worker win) = true ->
  SerialWorker.port_is_open (serial_worker win) = true ->
  forallb (fun p => negb (is_fault p)) pre = true ->
  exists win',
    worker_thread env (pre ++ SerialWorker.fault e :: post) win =
      (Ok post, win') /\
    serial_worker win' =
      (SerialWorker.disconnect
         {| SerialWorker.serial_port :=
              SerialWorker.serial_port (serial_worker win);
            SerialWorker.is_running := false |}).1 /\
    connect_btn_isChecked win' = false.
Proof.
  intros Hr Ho Hp.
  unfold worker_thread, on_worker, mbind, M_bind.
  rewrite (run_until_fault pre e post _ Hr Ho Hp). cbn [fst snd].
  rewrite deliver_app.
  destruct (deliver_delivered env pre) as [cs ->].
  cbn [deliver slot]. unfold mbind, M_bind, handle_error. cbn [call].
  match goal with
  | |- context [handle_disconnect env ?x] =>
      destruct (handle_disconnect_closes env x) as (win' & -> & Hw & Hc)
  end.
  exists win'. split; [reflexivity|]. split; [exact Hw|exact Hc].
Qed.

(** X14. Once a read fault has been handled, the window refuses to send:
    every later [send_command] only shows the warning [Not Connected], and
    nothing is added to what was written on the port before the fault. *)
Theorem sends_refused_after_fault env pre e post win cmd write_error :
  SerialWorker.is_running (serial_worker win) = true ->
  SerialWorker.port_is_open (serial_worker win) = true ->
  forallb (fun p => negb (is_fault p)) pre = true ->
  exists win',
    worker_thread env (pre ++ SerialWorker.fault e :: post) win =
      (Ok post, win') /\
    MainWindow.send_command cmd write_error win' =
      (Ok tt,
       add_calls [QMessageBox_warning "Not Connected" "Please connect first"]
                 win') /\
    written_of
      (serial_worker (MainWindow.send_command cmd write_error win').2) =
    written_of (serial_worker win).
Proof.
  intros Hr Ho Hp.
  destruct (worker_thread_until_fault env pre e post win Hr Ho Hp)
    as (win' & E & Hw & _).
  exists win'. split; [exact E|].
  assert (Hs : SerialWorker.is_running (serial_worker win') = false).
  { rewrite Hw. apply disconnect_closed. }
  assert (S : MainWindow.send_command cmd write_error win' =
    (Ok tt,
     add_calls [QMessageBox_warning "Not Connected" "Please connect first"]
               win')).
  { unfold MainWindow.send_command. now rewrite Hs. }
  split; [exact S|]. rewrite S. cbn [snd add_calls serial_worker].
  rewrite Hw. unfold written_of.
  destruct (serial_worker win) as [[[n b [] wr]|] r]; reflexivity.
Qed.

Lemma sends_refused_after_fault_witness :
  exists win',
    worker_thread
      {| port_text := "COM_TEST"; baud := 9600; open_error := None |}
      ([SerialWorker.line "42"] ++ SerialWorker.fault "gone" :: [])
      {| serial_worker := connected; connect_btn_isChecked := true;
         calls := [] |} = (Ok [], win') /\
    MainWindow.send_command "*IDN?" None win' =
      (Ok tt,
       add_calls [QMessageBox_warning "Not Connected" "Please connect first"]
                 win') /\
    written_of (serial_worker (MainWindow.send_command "*IDN?" None win').2) =
    written_of connected.
Proof.
  apply (sends_refused_after_fault
           {| port_text := "COM_TEST"; baud := 9600; open_error := None |}
           [SerialWorker.line "42"] "gone" []
           {| serial_worker := connected; connect_btn_isChecked := true;
              calls := [] |} "*IDN?" None); reflexivity.
Defined.

(** ** The controls *)

Lemma send_command_ok cmd write_error win :
  exists win', MainWindow.send_command cmd write_error win = (Ok tt, win').
Proof.
  destruct win as [[[[n b o wr]|] r] chk cs];
    destruct r; try destruct o; destruct write_error;
    eexists; reflexivity.
Qed.

Lemma lift_send cmd write_error c win' :
  MainWindow.send_command cmd write_error (Controls.window c) = (Ok tt, win') ->
  Controls.lift (MainWindow.send_command cmd write_error) c =
  (Ok tt, {| Controls.window := win';
             Controls.led_isChecked := Controls.led_isChecked c;
             Controls.control_calls := Controls.control_calls c |}).
Proof. intros H. unfold Controls.lift. now rewrite H. Qed.

(** For an LED that exists, [toggle_led] sets its indicator after the
    send. *)
Lemma toggle_led_ok num state write_error c win' :
  (1 <= num <= 3)%Z ->
  MainWindow.send_command (Controls.led_command num state) write_error
    (Controls.window c) = (Ok tt, win') ->
  Controls.toggle_led num state write_error c =
  (Ok tt,
   {| Controls.window := win';
      Controls.led_isChecked := Controls.led_isChecked c;
      Controls.control_calls :=
        Controls.control_calls c ++
        [Controls.setState (Controls.led_widgets (Z.to_nat (num - 1)))
           state] |}).
Proof.
  intros Hn Hs. unfold Controls.toggle_led, mbind, Controls.M_bind.
  rewrite (lift_send _ _ _ _ Hs).
  assert (H : (num = 1 \/ num = 2 \/ num = 3)%Z) by lia.
  destruct H as [-> | [-> | ->]]; reflexivity.
Qed.

(** X15. [toggle_led] for one of the LEDs 1 to 3 never fails: it sends the
    command [GPIO:LED<num> ON] or [OFF] through [send_command] and then
    sets the indicator of that LED. The indicator is set whether or not the
    command went out: with the worker not running, the only effect on the
    window is the warning [Not Connected], and the indicator changes all
    the same. *)
Theorem toggle_led_sets_indicator num state write_error c :
  (1 <= num <= 3)%Z ->
  exists win',
    MainWindow.send_command (Controls.led_command num state) write_error
      (Controls.window c) = (Ok tt, win') /\
    Controls.toggle_led num state write_error c =
    (Ok tt,
     {| Controls.window := win';
        Controls.led_isChecked := Controls.led_isChecked c;
        Controls.control_calls :=
          Controls.control_calls c ++
          [Controls.setState (Controls.led_widgets (Z.to_nat (num - 1)))
             state] |}) /\
    (SerialWorker.is_running (serial_worker (Controls.window c)) = false ->
     win' = add_calls
              [QMessageBox_warning "Not Connected" "Please connect first"]
              (Controls.window c)).
Proof.
  intros Hn.
  destruct (send_command_ok (Controls.led_command num state) write_error
              (Controls.window c)) as [win' Hs].
  exists win'. split; [exact Hs|]. split.
  - now apply toggle_led_ok.
  - intros Hr. unfold MainWindow.send_command in Hs. rewrite Hr in Hs.
    now injection Hs as <-.
Qed.

Lemma toggle_led_sets_indicator_witness :
  Controls.toggle_led 2 true None Controls.init =
  (Ok tt,
   {| Controls.window :=
        add_calls [QMessageBox_warning "Not Connected" "Please connect first"]
                  MainWindow.init;
      Controls.led_isChecked := [false; false; false];
      Controls.control_calls :=
        [Controls.setState (Controls.led_widgets 1) true] |}).
Proof.
  destruct (toggle_led_sets_indicator 2 true None Controls.init)
    as (win' & _ & E & Hw); [lia|].
  rewrite E, (Hw eq_refl). reflexivity.
Defined.

(** X16. [toggle_led] with a number that is not an LED: beyond 3, and
    below -2, the command has already been passed to [send_command] when
    the index error is raised, and no indicator is set; for 0, -1 and -2
    the negative index counts from the end of the list, so that the
    indicator of LED [num + 3] is set. *)
Theorem toggle_led_outside_range num state write_error c :
  exists win',
    MainWindow.send_command (Controls.led_command num state) write_error
      (Controls.window c) = (Ok tt, win') /\
    ((3 < num \/ num < -2)%Z ->
     Controls.toggle_led num state write_error c =
     (Raise IndexError,
      {| Controls.window := win';
         Controls.led_isChecked := Controls.led_isChecked c;
         Controls.control_calls := Controls.control_calls c |})) /\
    ((-2 <= num <= 0)%Z ->
     Controls.toggle_led num state write_error c =
     (Ok tt,
      {| Controls.window := win';
         Controls.led_isChecked := Controls.led_isChecked c;
         Controls.control_calls :=
           Controls.control_calls c ++
           [Controls.setState (Controls.led_widgets (Z.to_nat (num + 2)))
              state] |})).
Proof.
  destruct (send_command_ok (Controls.led_command num state) write_error
              (Controls.window c)) as [win' Hs].
  exists win'. split; [exact Hs|]. split; intros Hn.
  - unfold Controls.toggle_led, mbind, Controls.M_bind.
    rewrite (lift_send _ _ _ _ Hs).
    assert (E : py_getitem Controls.led_widgets_list (num - 1) = None).
    { unfold py_getitem. change (Z.of_nat (length _)) with 3%Z.
      destruct Hn as [Hn|Hn].
      - destruct (num - 1 <? 0)%Z eqn:E1; [apply Z.ltb_lt in E1; lia|].
        apply lookup_ge_None_2. cbn. lia.
      - destruct (num - 1 <? 0)%Z eqn:E1; [|apply Z.ltb_ge in E1; lia].
        destruct (num - 1 + 3 <? 0)%Z eqn:E2; [reflexivity|].
        apply Z.ltb_ge in E2. lia. }
    now rewrite E.
  - unfold Controls.toggle_led, mbind, Controls.M_bind.
    rewrite (lift_send _ _ _ _ Hs).
    assert (H : (num = 0 \/ num = -1 \/ num = -2)%Z) by lia.
    destruct H as [-> | [-> | ->]]; reflexivity.
Qed.

Lemma toggle_led_outside_range_witness :
  Controls.toggle_led 4 true None Controls.init =
  (Raise IndexError,
   {| Controls.window :=
        add_calls [QMessageBox_warning "Not Connected" "Please connect first"]
                  MainWindow.init;
      Controls.led_isChecked := [false; false; false];
      Controls.control_calls := [] |}).
Proof.
  destruct (toggle_led_outside_range 4 true None Controls.init)
    as (win' & Hs & E & _).
  rewrite E by lia. injection Hs as <-. reflexivity.
Defined.

Lemma number_char_not_lf c :
  is_decimal c || Ascii.eqb c "-" = true ->
  negb (Ascii.eqb c (ascii_of_N 10)) = true.
Proof. each_char c; vm_compute; intros H; try discriminate H; reflexivity. Qed.

Lemma py_str_no_lf z :
  str_all (fun c => negb (Ascii.eqb c (ascii_of_N 10))) (py_str z) = true.
Proof.
  apply (str_all_impl _ _ _ number_char_not_lf). apply py_str_chars.
Qed.

Lemma one_line cmd :
  str_all (fun c => negb (Ascii.eqb c (ascii_of_N 10))) cmd = true ->
  split (ascii_of_N 10) (cmd +:+ LF) = [cmd; ""].
Proof. intros H. unfold LF. now rewrite (split_app _ _ _ H). Qed.

(** X17. Every command of the LED, relay and PWM controls is one line on
    the wire: whatever the numbers, the text handed to [send_command]
    contains no line feed, so that with the line feed that the worker adds
    it splits into the command and nothing more. *)
Theorem control_commands_are_one_line num state channel value :
  split (ascii_of_N 10) (Controls.led_command num state +:+ LF) =
    [Controls.led_command num state; ""] /\
  split (ascii_of_N 10) (Controls.relay_command num state +:+ LF) =
    [Controls.relay_command num state; ""] /\
  split (ascii_of_N 10) (Controls.pwm_duty_command channel value +:+ LF) =
    [Controls.pwm_duty_command channel value; ""] /\
  split (ascii_of_N 10) (Controls.pwm_freq_command channel value +:+ LF) =
    [Controls.pwm_freq_command channel value; ""].
Proof.
  repeat split; apply one_line;
    unfold Controls.led_command, Controls.relay_command,
      Controls.pwm_duty_command, Controls.pwm_freq_command;
    rewrite !str_all_app, ?py_str_no_lf; now destruct state.
Qed.

Lemma rstrip_idem s : rstrip (rstrip s) = rstrip s.
Proof.
  induction s as [|c r IH]; [reflexivity|]. cbn [rstrip].
  destruct (str_is_empty (rstrip r) && Py_UNICODE_ISSPACE c) eqn:E;
    [reflexivity|].
  cbn [rstrip]. now rewrite IH, E.
Qed.

Lemma lstrip_starts_clean s : starts_clean (lstrip s) = true.
Proof.
  induction s as [|c r IH]; [reflexivity|]. cbn [lstrip].
  destruct (Py_UNICODE_ISSPACE c) eqn:E; [exact IH|].
  cbn [starts_clean]. now rewrite E.
Qed.

Lemma rstrip_starts_clean s :
  starts_clean s = true -> starts_clean (rstrip s) = true.
Proof.
  destruct s as [|c r]; [reflexivity|]. cbn [starts_clean rstrip].
  intros H. apply negb_true_iff in H. rewrite H, andb_false_r.
  cbn [starts_clean]. now rewrite H.
Qed.

Lemma lstrip_clean s : starts_clean s = true -> lstrip s = s.
Proof.
  destruct s as [|c r]; [reflexivity|]. cbn [starts_clean lstrip].
  intros H. apply negb_true_iff in H. now rewrite H.
Qed.

Lemma strip_idem s : strip (strip s) = strip s.
Proof.
  unfold strip.
  rewrite (lstrip_clean (rstrip (lstrip s))), rstrip_idem; [reflexivity|].
  apply rstrip_starts_clean, lstrip_starts_clean.
Qed.

(** X18. [send_custom_command] never sends an empty command: for a text
    that is empty or all whitespace it does nothing at all, not even clear
    the input line. Otherwise it passes the stripped text, which is not
    empty and which stripping leaves unchanged, to [send_command] and then
    clears the input line. *)
Theorem custom_command_is_stripped text write_error c :
  (str_is_empty (strip text) = true ->
   Controls.send_custom_command text write_error c = (Ok tt, c)) /\
  (str_is_empty (strip text) = false ->
   strip (strip text) = strip text /\
   exists win',
     MainWindow.send_command (strip text) write_error (Controls.window c)
       = (Ok tt, win') /\
     Controls.send_custom_command text write_error c =
     (Ok tt,
      {| Controls.window := win';
         Controls.led_isChecked := Controls.led_isChecked c;
         Controls.control_calls :=
           Controls.control_calls c ++ [Controls.clear Controls.cmd_input]
      |})).
Proof.
  unfold Controls.send_custom_command. split; intros H; rewrite H.
  - reflexivity.
  - split; [apply strip_idem|].
    destruct (send_command_ok (strip text) write_error (Controls.window c))
      as [win' Hs].
    exists win'. split; [exact Hs|].
    unfold mbind, Controls.M_bind. now rewrite (lift_send _ _ _ _ Hs).
Qed.

Lemma custom_command_is_stripped_witness :
  Controls.send_custom_command "   " None Controls.init =
    (Ok tt, Controls.init) /\
  strip (strip "  *IDN?  ") = strip "  *IDN?  ".
Proof.
  split.
  - apply (proj1 (custom_command_is_stripped "   " None Controls.init)).
    reflexivity.
  - apply (proj2 (custom_command_is_stripped "  *IDN?  " None Controls.init)).
    reflexivity.
Defined.

(** A check box of an LED set to [b]: the box takes the state [b], and
    when it had it already nothing is sent and no indicator changes. *)
Lemma led_checks_setChecked_ok i b write_error c old :
  i < 3 -> Controls.led_isChecked c !! i = Some old ->
  exists c',
    Controls.led_checks_setChecked i b write_error c = (Ok tt, c') /\
    Controls.led_isChecked c' = <[i := b]> (Controls.led_isChecked c).
Proof.
  intros Hi Hl. unfold Controls.led_checks_setChecked. rewrite Hl.
  destruct (Bool.eqb old b); [eexists; split; reflexivity|].
  match goal with
  | |- context [Controls.toggle_led ?n b write_error ?x] =>
      destruct (send_command_ok (Controls.led_command n b) write_error
                  (Controls.window x)) as [win' Hs];
      rewrite (toggle_led_ok n b write_error x win' ltac:(lia) Hs)
  end.
  eexists; split; reflexivity.
Qed.

Lemma for_each_boxes (f : nat -> bool) write_error c b0 b1 b2 :
  Controls.led_isChecked c = [b0; b1; b2] ->
  exists c',
    Controls.for_each (seq 0 3)
      (fun i => Controls.led_checks_setChecked i (f i) (write_error i)) c
      = (Ok tt, c') /\
    Controls.led_isChecked c' = [f 0; f 1; f 2].
Proof.
  intros Hl. cbn [seq Controls.for_each]. unfold mbind, Controls.M_bind.
  destruct (led_checks_setChecked_ok 0 (f 0) (write_error 0) c b0)
    as (c0 & -> & H0); [lia|now rewrite Hl|].
  rewrite Hl in H0. cbn in H0.
  destruct (led_checks_setChecked_ok 1 (f 1) (write_error 1) c0 b1)
    as (c1 & -> & H1); [lia|now rewrite H0|].
  rewrite H0 in H1. cbn in H1.
  destruct (led_checks_setChecked_ok 2 (f 2) (write_error 2) c1 b2)
    as (c2 & -> & H2); [lia|now rewrite H1|].
  rewrite H1 in H2. cbn in H2.
  exists c2. split; [reflexivity|exact H2].
Qed.

(** X19. [all_leds] never fails and leaves the three check boxes in the
    state asked for. Asked again for the same state, it sets the boxes
    once more and nothing else happens: no command is sent, no warning is
    shown and no indicator changes. *)
Theorem all_leds_settles state write_error c :
  length (Controls.led_isChecked c) = 3 ->
  exists c',
    Controls.all_leds state write_error c = (Ok tt, c') /\
    Controls.led_isChecked c' = [state; state; state] /\
    forall write_error',
      Controls.all_leds state write_error' c' =
      (Ok tt,
       {| Controls.window := Controls.window c';
          Controls.led_isChecked := Controls.led_isChecked c';
          Controls.control_calls :=
            Controls.control_calls c' ++
            [Controls.setChecked (Controls.led_checks 0) state;
             Controls.setChecked (Controls.led_checks 1) state;
             Controls.setChecked (Controls.led_checks 2) state] |}).
Proof.
  intros Hlen.
  destruct (Controls.led_isChecked c) as [|b0 [|b1 [|b2 [|x l]]]] eqn:Hl;
    try discriminate.
  destruct (for_each_boxes (fun _ => state) write_error c b0 b1 b2 Hl)
    as (c' & E & H').
  exists c'. split; [exact E|]. split; [exact H'|].
  intros we'. destruct c' as [win l' cs]. cbn in H'. subst l'.
  unfold Controls.all_leds. cbn [seq Controls.for_each].
  unfold mbind, Controls.M_bind, Controls.led_checks_setChecked.
  cbn. rewrite Bool.eqb_reflx. cbn. rewrite Bool.eqb_reflx. cbn.
  rewrite Bool.eqb_reflx. cbn. now rewrite <- !app_assoc.
Qed.

Lemma all_leds_settles_witness :
  exists c',
    Controls.all_leds true (fun _ => None) Controls.init = (Ok tt, c') /\
    Controls.led_isChecked c' = [true; true; true] /\
    forall write_error',
      Controls.all_leds true write_error' c' =
      (Ok tt,
       {| Controls.window := Controls.window c';
          Controls.led_isChecked := Controls.led_isChecked c';
          Controls.control_calls :=
            Controls.control_calls c' ++
            [Controls.setChecked (Controls.led_checks 0) true;
             Controls.setChecked (Controls.led_checks 1) true;
             Controls.setChecked (Controls.led_checks 2) true] |}).
Proof.
  apply (all_leds_settles true (fun _ => None) Controls.init). reflexivity.
Defined.

(** X20. [toggle_single_led] never fails and leaves exactly the box of the
    LED [idx] checked: box [i] is checked when [i = idx] and unchecked
    otherwise, so that at most one box is checked, and none when [idx] is
    not 0, 1 or 2. *)
Theorem toggle_single_led_one_hot idx write_error c :
  length (Controls.led_isChecked c) = 3 ->
  exists c',
    Controls.toggle_single_led idx write_error c = (Ok tt, c') /\
    Controls.led_isChecked c' =
      [(0 =? idx)%Z; (1 =? idx)%Z; (2 =? idx)%Z] /\
    length (List.filter (fun b : bool => b) (Controls.led_isChecked c')) =
      (if ((0 <=? idx) && (idx <? 3))%Z then 1 else 0).
Proof.
  intros Hlen.
  destruct (Controls.led_isChecked c) as [|b0 [|b1 [|b2 [|x l]]]] eqn:Hl;
    try discriminate.
  destruct (for_each_boxes (fun i => (Z.of_nat i =? idx)%Z)
              write_error c b0 b1 b2 Hl) as (c' & E & H').
  exists c'. split; [exact E|]. split; [exact H'|]. rewrite H'.
  change (Z.of_nat 0) with 0%Z. change (Z.of_nat 1) with 1%Z.
  change (Z.of_nat 2) with 2%Z.
  destruct (0 =? idx)%Z eqn:E0; destruct (1 =? idx)%Z eqn:E1;
    destruct (2 =? idx)%Z eqn:E2;
    destruct ((0 <=? idx) && (idx <? 3))%Z eqn:E3; cbn; try reflexivity;
    exfalso;
    try apply Z.eqb_eq in E0; try apply Z.eqb_eq in E1;
    try apply Z.eqb_eq in E2;
    try apply Z.eqb_neq in E0; try apply Z.eqb_neq in E1;
    try apply Z.eqb_neq in E2;
    try (apply andb_true_iff in E3 as [E3 E4];
         apply Z.leb_le in E3; apply Z.ltb_lt in E4);
    try (apply andb_false_iff in E3 as [E3|E3];
         [apply Z.leb_gt in E3|apply Z.ltb_ge in E3]);
    lia.
Qed.

Lemma toggle_single_led_one_hot_witness :
  exists c',
    Controls.toggle_single_led 1 (fun _ => None) Controls.init
      = (Ok tt, c') /\
    Controls.led_isChecked c' = [false; true; false] /\
    length (List.filter (fun b : bool => b) (Controls.led_isChecked c')) = 1.
Proof.
  apply (toggle_single_led_one_hot 1 (fun _ => None) Controls.init).
  reflexivity.
Defined.

(** X21. Closing the window never leaves the reader running behind an
    accepted close: the close is refused exactly when the worker runs and
    the answer is no, and then the worker is untouched; in every other case
    the worker is not running afterwards, and after a confirmed close its
    port is closed. *)
Theorem closeEvent_stops_reader reply_yes (w : SerialWorker.t) :
  ((Controls.closeEvent reply_yes w).2 = Controls.event_ignored <->
   SerialWorker.is_running w = true /\ reply_yes = false) /\
  ((Controls.closeEvent reply_yes w).2 = Controls.event_ignored ->
   (Controls.closeEvent reply_yes w).1 = w) /\
  ((Controls.closeEvent reply_yes w).2 <> Controls.event_ignored ->
   SerialWorker.is_running (Controls.closeEvent reply_yes w).1 = false) /\
  ((Controls.closeEvent reply_yes w).2 = Controls.event_accepted ->
   SerialWorker.port_is_open (Controls.closeEvent reply_yes w).1 = false).
Proof.
  unfold Controls.closeEvent.
  destruct (disconnect_closed w) as (Ho & Hr & _).
  destruct (SerialWorker.is_running w) eqn:E; destruct reply_yes;
    cbn [fst snd]; repeat split; try congruence; try tauto;
    intros; try congruence; intuition congruence.
Qed.

Lemma closeEvent_stops_reader_witness :
  SerialWorker.is_running (Controls.closeEvent true connected).1 = false /\
  SerialWorker.port_is_open (Controls.closeEvent true connected).1 = false.
Proof.
  split.
  - apply (proj1 (proj2 (proj2 (closeEvent_stops_reader true connected)))).
    discriminate.
  - apply (proj2 (proj2 (proj2 (closeEvent_stops_reader true connected)))).
    reflexivity.
Defined.

(** ** The log *)





